(** * DalalStreetAI: the recommendation-and-evaluation pipeline

    A shallow embedding of the three batch jobs of the backend
    ([agent_worker.py], [updated_pnl.py], [weekly_predictory.py]) and of
    [run_full_analysis] from [app.py], with the properties of the
    specification stated over them.

    Conventions.
    - Prices are Python floats, i.e. IEEE binary64: they are [float], and
      every arithmetic step is the primitive operation the interpreter runs.
    - A table is the list of its rows, in table order.  A SQL [UPDATE ... WHERE
      id = i] rewrites every row whose id is [i].
    - A calendar date is its day number, counted from a Monday, so that
      [date.weekday()] is the remainder modulo 7.
    - Whatever the code reads from the outside (price feed, language model)
      is an argument of the job. *)

From Stdlib Require Import ZArith Floats Ascii.
From stdpp Require Import gmap strings list.

Set Warnings "-inexact-float".

Open Scope Z_scope.

(** ** The [decisions] table *)

Module Store.

(** One row of [decisions].  Only [DATE(timestamp)] is ever read by the
    jobs, so the timestamp is kept as its date. *)
Record DecisionRow := mkDecision {
  d_id : Z;
  d_symbol : string;
  d_exchange : string;
  d_date : Z;
  price_at_decision : option float;
  decision : string;
  confidence : string;
  technical_summary : string;
  fundamental_summary : string;
  sentiment_summary : string;
  final_summary : string;
  profit_loss : option float
}.

Definition set_profit_loss (v : float) (r : DecisionRow) : DecisionRow :=
  mkDecision (d_id r) (d_symbol r) (d_exchange r) (d_date r)
    (price_at_decision r) (decision r) (confidence r)
    (technical_summary r) (fundamental_summary r) (sentiment_summary r)
    (final_summary r) (Some v).

(** [id] is the table's key. *)
Definition primary_key (db : list DecisionRow) : Prop := NoDup (d_id <$> db).

End Store.

(** ** [updated_pnl.py] *)

Module UpdatedPnl.
Import Store.

(** What [yf.download(symbols, period="1d")] hands back. *)
Inductive download :=
| Failed                                   (* the call raises *)
| Empty                                    (* [data.empty] *)
| Series (last : float)                    (* [data['Close']] is a Series *)
| Frame (last_row : gmap string float).    (* a DataFrame, one column per symbol *)

(** [WHERE profit_loss IS NULL AND decision IN ('BUY', 'SELL')] *)
Definition eligible (r : DecisionRow) : bool :=
  match profit_loss r with
  | None => String.eqb (decision r) "BUY" || String.eqb (decision r) "SELL"
  | Some _ => false
  end.

Definition select_decisions (db : list DecisionRow) : list DecisionRow :=
  filter (fun r => eligible r = true) db.

(** [list(set([d['symbol'] for d in decisions]))] *)
Definition symbols_of (decisions : list DecisionRow) : list string :=
  remove_dups (d_symbol <$> decisions).

(** The price extraction: [None] stands for the two early returns. *)
Definition latest_prices (symbols : list string) (data : download)
  : option (gmap string float) :=
  match data with
  | Failed | Empty => None
  | Series last =>
      match symbols with
      | s0 :: _ => Some {[ s0 := last ]}
      | [] => None
      end
  | Frame last_row => Some last_row
  end.

Inductive outcome :=
| Skip                      (* one of the [continue]s *)
| Raised                    (* caught by the per-row [except] *)
| Update (pnl_percent : float).

(** The body of [for dec in decisions]. *)
Definition reconcile (latest_prices_dict : gmap string float) (dec : DecisionRow)
  : outcome :=
  match latest_prices_dict !! d_symbol dec with
  | None => Skip
  | Some current_price =>
      if PrimFloat.is_nan current_price then Skip else
      match price_at_decision dec with
      | None => Skip
      | Some decision_price =>
          if PrimFloat.ltb (PrimFloat.abs (current_price - decision_price)) 0.01
          then Skip
          else if PrimFloat.eqb decision_price 0
          then Raised                      (* ZeroDivisionError *)
          else
            let pnl_percent :=
              (((current_price - decision_price) / decision_price) * 100)%float in
            Update (if String.eqb (decision dec) "SELL"
                    then (pnl_percent * -1)%float else pnl_percent)
      end
  end.

(** [UPDATE decisions SET profit_loss = %s WHERE id = %s] *)
Definition sql_update (v : float) (i : Z) (db : list DecisionRow) : list DecisionRow :=
  (fun r => if Z.eqb (d_id r) i then set_profit_loss v r else r) <$> db.

Definition process (latest_prices_dict : gmap string float)
    (db : list DecisionRow) (dec : DecisionRow) : list DecisionRow :=
  match reconcile latest_prices_dict dec with
  | Update v => sql_update v (d_id dec) db
  | Skip | Raised => db
  end.

Definition update_profit_loss (data : download) (db : list DecisionRow)
  : list DecisionRow :=
  let decisions := select_decisions db in
  match decisions with
  | [] => db
  | _ =>
      match latest_prices (symbols_of decisions) data with
      | None => db
      | Some latest_prices_dict =>
          foldl (process latest_prices_dict) db decisions
      end
  end.

(** The job is started again and again, each time with a fresh feed. *)
Definition runs (feeds : list download) (db : list DecisionRow) : list DecisionRow :=
  foldl (fun db data => update_profit_loss data db) db feeds.

(** The price the run holds for a symbol, if any. *)
Definition current_price_of (data : download) (db : list DecisionRow)
    (symbol : string) : option float :=
  latest_prices (symbols_of (select_decisions db)) data ≫= (.!! symbol).

End UpdatedPnl.

(** ** [app.py]: [run_full_analysis] *)

Module App.
Import Store.

(** [stock.history(period="6mo")] followed by the indicator code. *)
Inductive history :=
| HistEmpty                        (* [hist.empty] *)
| HistRaises (e : string)          (* the fetch or an indicator raises *)
| HistClose (close : float).       (* [technicals['Close']] *)

(** The language model behind [chain.invoke], after [JsonOutputParser]:
    an exception, or the JSON object of the reply.  The object is kept as
    the dictionary of its string-valued members, which is what the prompt
    asks for.  The reply may depend on the table, through the
    past-performance text of the prompt. *)
Record world := mkWorld {
  stock_history : string → history;
  chain_invoke :
    string → string → float → list DecisionRow → string + gmap string string
}.

(** The returned dictionary: its string members, and the float stored
    under ['price_at_decision'] when there is one. *)
Record analysis := mkAnalysis {
  members : gmap string string;
  price : option float
}.

Definition error (msg : string) : analysis :=
  mkAnalysis {[ "error" := msg ]} None.

Definition run_full_analysis (w : world) (db : list DecisionRow)
    (symbol exchange : string) : analysis :=
  match stock_history w symbol with
  | HistEmpty => error "Could not fetch historical data."
  | HistRaises e =>
      error ("Error in full analysis for " +:+ symbol +:+ ": " +:+ e)
  | HistClose close =>
      match chain_invoke w symbol exchange close db with
      | inl e =>
          error ("Error in full analysis for " +:+ symbol +:+ ": " +:+ e)
      | inr response_dict =>
          (* analysis_json['price_at_decision'] = technicals['Close'] *)
          mkAnalysis response_dict (Some close)
      end
  end.

End App.

(** ** [agent_worker.py] *)

Module AgentWorker.
Import Store App.

(** One row of [watchlist]. *)
Record WatchlistEntry := mkWatch {
  user_id : Z;
  w_symbol : string;
  w_exchange : string
}.

(** [SELECT DISTINCT symbol, exchange FROM watchlist] *)
Definition unique_stocks (watchlist : list WatchlistEntry)
  : list (string * string) :=
  remove_dups ((fun e => (w_symbol e, w_exchange e)) <$> watchlist).

(** [SELECT id FROM decisions WHERE symbol = %s AND DATE(timestamp) =
    CURRENT_DATE], then [cur.fetchone()] as a truth value. *)
Definition has_today (today : Z) (symbol : string) (db : list DecisionRow)
  : bool :=
  existsb (fun r => String.eqb (d_symbol r) symbol && Z.eqb (d_date r) today) db.

(** Modelled from the spec: the column defaults of [decisions], whose
    schema is not in the sources.  A new row gets a key no row has, the
    current date as its timestamp, and a null [profit_loss]. *)
Definition fresh_id (db : list DecisionRow) : Z :=
  1 + foldr Z.max 0 (d_id <$> db).

(** [{'symbol': symbol, 'exchange': exchange, **analysis_result}]: the
    members of the analysis come last and win. *)
Definition insert_params (symbol exchange : string) (a : analysis)
  : gmap string string :=
  members a ∪ {[ "symbol" := symbol; "exchange" := exchange ]}.

(** The [INSERT INTO decisions ...] with named parameters; [None] when a
    parameter is missing, which raises before anything is written. *)
Definition sql_insert (today : Z) (params : gmap string string)
    (price : option float) (db : list DecisionRow)
  : option (list DecisionRow) :=
  symbol ← params !! "symbol";
  exchange ← params !! "exchange";
  price_at_decision ← price;
  decision ← params !! "decision";
  confidence ← params !! "confidence";
  technical_summary ← params !! "technical_summary";
  fundamental_summary ← params !! "fundamental_summary";
  sentiment_summary ← params !! "sentiment_summary";
  final_summary ← params !! "final_summary";
  Some (db ++ [mkDecision (fresh_id db) symbol exchange today
                 (Some price_at_decision) decision confidence
                 technical_summary fundamental_summary sentiment_summary
                 final_summary None]).

(** What the job prints, one event per line of output in the loop. *)
Inductive event :=
| AlreadyToday (symbol : string)
| NeedsAnalysis (symbol : string)
| CouldNotAnalyze (symbol reason : string)
| Saved (symbol : string)
| DatabaseError (symbol : string).

Definition state : Type := list DecisionRow * list event.

(** The body of [for stock in unique_stocks]. *)
Definition visit (w : world) (today : Z) (st : state)
    (stock : string * string) : state :=
  let '(db, log) := st in
  let '(symbol, exchange) := stock in
  if has_today today symbol db
  then (db, log ++ [AlreadyToday symbol])
  else
    let analysis_result := run_full_analysis w db symbol exchange in
    match members analysis_result !! "error" with
    | Some reason =>
        (db, log ++ [NeedsAnalysis symbol; CouldNotAnalyze symbol reason])
    | None =>
        match sql_insert today (insert_params symbol exchange analysis_result)
                (price analysis_result) db with
        | Some db' => (db', log ++ [NeedsAnalysis symbol; Saved symbol])
        | None => (db, log ++ [NeedsAnalysis symbol; DatabaseError symbol])
        end
    end.

Definition run_proactive_analysis (w : world) (today : Z)
    (watchlist : list WatchlistEntry) (db : list DecisionRow) : state :=
  foldl (visit w today) (db, []) (unique_stocks watchlist).

(** The rows of a symbol. *)
Definition rows_of (symbol : string) (db : list DecisionRow)
  : list DecisionRow :=
  filter (fun r => d_symbol r = symbol) db.

(** No member named ["symbol"] in any reply of the model names [symbol]. *)
Definition never_names (w : world) (symbol : string) : Prop :=
  ∀ s e close db reply,
    chain_invoke w s e close db = inr reply → reply !! "symbol" ≠ Some symbol.

End AgentWorker.

(** ** [weekly_predictory.py] *)

Module WeeklyPredictory.

Definition INDICES_TO_PREDICT : list string := ["^NSEI"; "^BSESN"].

(** One entry of [daily_predictions]. *)
Record DailyPrediction := mkDaily {
  day : string;
  predicted_price : float
}.

(** The text of [performance_summary], kept as the values it prints:
    ["Avg Daily Error: {avg_diff:.2f}%. "] followed by one
    ["- {day}: Off by {diff_percent:.2f}%"] per entry of
    [performance_lines]. *)
Record Summary := mkSummary {
  avg_diff : float;
  performance_lines : list (string * float)
}.

(** One row of [weekly_index_predictions]. *)
Record WeeklyForecast := mkForecast {
  f_id : Z;
  f_symbol : string;
  prediction_date : Z;
  week_start_date : Z;
  week_end_date : Z;
  daily_predictions_json : option (list DailyPrediction);
  weekly_reasoning : string;
  actual_closing_price : option float;
  performance_summary : option Summary
}.

(** [date.weekday()]: Monday is 0. *)
Definition weekday (d : Z) : Z := d mod 7.

(** *** Evaluation of last week *)

(** The frame [yf.download(symbol, start=..., end=...)] returns: its rows
    in index order, each the day of its label and its close. *)
Definition frame : Type := list (Z * float).

(** The two kinds of value that meet in the lookup.  The DATE columns of
    the table come back as [datetime.date], and [timedelta] keeps them so;
    the index of a downloaded frame is a [DatetimeIndex], whose labels are
    [Timestamp]s. *)
Inductive label :=
| PyDate (day : Z)
| PyTimestamp (day : Z).

(** Whether [get_loc] of a [DatetimeIndex] finds the key at a label: a
    [Timestamp] key at the label of the same day; for a [datetime.date]
    key it raises [KeyError], which [in] answers with [False]. *)
Definition index_has (key entry : label) : bool :=
  match key, entry with
  | PyTimestamp a, PyTimestamp b => Z.eqb a b
  | _, _ => false
  end.

(** [day_date in actual_hist.index], then [actual_hist.loc[day_date]['Close']],
    with [day_date = pred['week_start_date'] + timedelta(days=i)]. *)
Definition close_on (day_date : Z) (actual_hist : frame) : option float :=
  snd <$> List.find
            (fun row => index_has (PyDate day_date) (PyTimestamp (fst row)))
            actual_hist.

Definition diff_percent (actual_price predicted_price : float) : float :=
  if PrimFloat.ltb 0 predicted_price
  then (((actual_price - predicted_price) / predicted_price) * 100)%float
  else 0%float.

(** [for i, daily_pred in enumerate(predicted_days)], from index [i] on,
    with the two accumulators of the loop. *)
Fixpoint score (actual_hist : frame) (week_start : Z) (i : Z)
    (predicted_days : list DailyPrediction)
    (performance_lines : list (string * float)) (total_diff_percent : float)
  : list (string * float) * float :=
  match predicted_days with
  | [] => (performance_lines, total_diff_percent)
  | daily_pred :: rest =>
      match close_on (week_start + i) actual_hist with
      | Some actual_price =>
          let d := diff_percent actual_price (predicted_price daily_pred) in
          score actual_hist week_start (i + 1) rest
            (performance_lines ++ [(day daily_pred, d)])
            (total_diff_percent + d)%float
      | None =>
          score actual_hist week_start (i + 1) rest
            performance_lines total_diff_percent
      end
  end.

(** [len(predicted_days)] as the divisor of a float division. *)
Definition float_of_len {A} (l : list A) : float :=
  PrimFloat.of_uint63 (Uint63.of_Z (Z.of_nat (length l))).

Inductive outcome :=
| Skip                                   (* the [continue] *)
| Raised                                 (* caught by the per-row [except] *)
| Update (final_actual_price : float) (summary : Summary).

(** The body of [for pred in predictions_to_evaluate].  The feed answers
    [None] when the download raises. *)
Definition evaluate (download : string → Z → Z → option frame)
    (pred : WeeklyForecast) : outcome :=
  match download (f_symbol pred) (week_start_date pred)
          (week_end_date pred + 1) with
  | None => Raised
  | Some actual_hist =>
      match daily_predictions_json pred with
      | None | Some [] => Skip
      | Some predicted_days =>
          let '(performance_lines, total_diff_percent) :=
            score actual_hist (week_start_date pred) 0 predicted_days [] 0 in
          let avg_diff :=
            (total_diff_percent / float_of_len predicted_days)%float in
          match last actual_hist with
          | None => Raised               (* [iloc[-1]] on an empty frame *)
          | Some (_, final_actual_price) =>
              Update final_actual_price (mkSummary avg_diff performance_lines)
          end
      end
  end.

Definition set_evaluation (p : float) (s : Summary) (r : WeeklyForecast)
  : WeeklyForecast :=
  mkForecast (f_id r) (f_symbol r) (prediction_date r) (week_start_date r)
    (week_end_date r) (daily_predictions_json r) (weekly_reasoning r)
    (Some p) (Some s).

(** [UPDATE weekly_index_predictions SET actual_closing_price = %s,
    performance_summary = %s WHERE id = %s] *)
Definition sql_update (p : float) (s : Summary) (i : Z)
    (db : list WeeklyForecast) : list WeeklyForecast :=
  (fun r => if Z.eqb (f_id r) i then set_evaluation p s r else r) <$> db.

Definition process (download : string → Z → Z → option frame)
    (db : list WeeklyForecast) (pred : WeeklyForecast) : list WeeklyForecast :=
  match evaluate download pred with
  | Update p s => sql_update p s (f_id pred) db
  | Skip | Raised => db
  end.

(** [WHERE week_start_date = %s AND actual_closing_price IS NULL] *)
Definition to_evaluate (last_week_start : Z) (r : WeeklyForecast) : bool :=
  Z.eqb (week_start_date r) last_week_start
  && match actual_closing_price r with None => true | Some _ => false end.

Definition evaluate_last_week_predictions
    (download : string → Z → Z → option frame) (today : Z)
    (db : list WeeklyForecast) : list WeeklyForecast :=
  let last_week_start := today - (weekday today + 7) in
  let predictions_to_evaluate :=
    filter (fun r => to_evaluate last_week_start r = true) db in
  foldl (process download) db predictions_to_evaluate.

(** *** Generation of next week *)

Record DataSummary := mkDataSummary {
  current_price : float;
  year_high : float;
  year_low : float;
  fifty_day_avg : float;
  two_hundred_day_avg : float
}.

(** The outside of the generation: the year of history reduced to the
    numbers of the prompt ([None] when the fetch raises or the history is
    empty, so that [iloc[-1]] raises), and the raw reply of the model
    ([None] when the call raises). *)
Record market := mkMarket {
  history_1y : string → option DataSummary;
  chain_invoke : string → Z → Z → DataSummary → option string
}.

(** The object [json.loads] returns, as the two members the job reads. *)
Record response := mkResponse {
  r_weekly_reasoning : option string;
  r_daily_predictions : option (list DailyPrediction)
}.

(** The prefix of [s] that ends at its last closing brace. *)
Fixpoint upto_last_brace (s : string) : option string :=
  match s with
  | EmptyString => None
  | String c rest =>
      match upto_last_brace rest with
      | Some m => Some (String c m)
      | None => if Ascii.eqb c "}"%char then Some (String c EmptyString) else None
      end
  end.

(** [re.search(r'\{.*\}', raw_response, re.DOTALL)]: from the first
    opening brace to the last closing brace after it. *)
Fixpoint json_match (raw_response : string) : option string :=
  match raw_response with
  | EmptyString => None
  | String c rest =>
      if Ascii.eqb c "{"%char then upto_last_brace raw_response
      else json_match rest
  end.

Section Generation.
(** [json.loads]; [None] when it raises. *)
Variable json_loads : string → option response.
Variable m : market.
Variable today : Z.

Definition week_start : Z := today + (7 - weekday today) mod 7.
Definition week_end : Z := week_start + 4.

(** [SELECT id ... WHERE symbol = %s AND week_start_date = %s] *)
Definition exists_for (symbol : string) (db : list WeeklyForecast) : bool :=
  existsb (fun r => String.eqb (f_symbol r) symbol
                    && Z.eqb (week_start_date r) week_start) db.

(** Modelled from the spec: the column defaults of
    [weekly_index_predictions], whose schema is not in the sources: a
    key no row has, and null evaluation columns. *)
Definition fresh_id (db : list WeeklyForecast) : Z :=
  1 + foldr Z.max 0 (f_id <$> db).

(** The [try] block for one symbol: the row to insert, or [None] when
    something in the block raises. *)
Definition forecast (symbol : string) (table : list WeeklyForecast)
  : option WeeklyForecast :=
  data_summary ← history_1y m symbol;
  raw_response ← chain_invoke m symbol week_start week_end data_summary;
  json ← json_match raw_response;
  response ← json_loads json;
  daily_predictions ← r_daily_predictions response;
  weekly_reasoning ← r_weekly_reasoning response;
  Some (mkForecast (fresh_id table) symbol today week_start week_end
          (Some daily_predictions) weekly_reasoning None None).

(** The body of [for symbol in INDICES_TO_PREDICT].  [pending] holds the
    rows inserted since the last rollback; the statements of the
    connection see the committed table followed by them. *)
Definition visit (db pending : list WeeklyForecast) (symbol : string)
  : list WeeklyForecast :=
  if exists_for symbol (db ++ pending) then pending
  else
    match forecast symbol (db ++ pending) with
    | Some row => pending ++ [row]
    | None => []                       (* [conn.rollback()] *)
    end.

Definition generate_new_weekly_predictions (db : list WeeklyForecast)
  : list WeeklyForecast :=
  db ++ foldl (visit db) [] INDICES_TO_PREDICT.

End Generation.

End WeeklyPredictory.

(** ** [app.py]: the symbol format and the endpoints around the table *)

Module Endpoints.
Import Store App AgentWorker.

(** [str.upper()] on a ticker: symbols are ASCII, where it acts on the
    letters a to z only. *)
Definition upper_char (c : ascii) : ascii :=
  let n := nat_of_ascii c in
  if (Nat.leb 97 n && Nat.leb n 122)%bool then ascii_of_nat (n - 32) else c.

Fixpoint upper (s : string) : string :=
  match s with
  | EmptyString => EmptyString
  | String c rest => String (upper_char c) (upper rest)
  end.

(** [s.startswith(prefix)] *)
Definition startswith (s prefix : string) : bool := String.prefix prefix s.

(** [s.endswith(suffix)] *)
Fixpoint endswith (s suffix : string) : bool :=
  String.eqb s suffix
  || match s with
     | EmptyString => false
     | String _ rest => endswith rest suffix
     end.

Definition format_indian_symbol (symbol exchange : string) : string :=
  if startswith symbol "^" then symbol
  else if negb (existsb (endswith (upper symbol)) [".NS"; ".BO"])
  then upper symbol
       +:+ (if String.eqb (upper exchange) "NSE" then ".NS" else ".BO")
  else upper symbol.

(** What [analyze_stock] answers. *)
Inductive answer :=
| Cached (existing_analysis : DecisionRow)   (* ["cached": True], seven columns of the row *)
| Fresh (new_decision : DecisionRow)         (* ["cached": False], the row [RETURNING *] gives *)
| Error (reason : string)                    (* [{"error": ...}] *)
| Crashed.                                   (* the INSERT raises; nothing is committed *)

(** [SELECT * FROM decisions WHERE symbol = %s AND DATE(timestamp) =
    CURRENT_DATE ORDER BY timestamp DESC LIMIT 1]: rows enter the table as
    time passes, so the latest timestamp is the last such row. *)
Definition existing_analysis (today : Z) (symbol : string)
    (db : list DecisionRow) : option DecisionRow :=
  last (filter (fun r => d_symbol r = symbol ∧ d_date r = today) db).

(** [GET /analyze/{user_id}/{symbol}]: the table it leaves and its answer.
    The insert is the one of the daily job, here outside any [try]. *)
Definition analyze_stock (w : world) (today : Z) (db : list DecisionRow)
    (user_id : Z) (symbol exchange : string) : list DecisionRow * answer :=
  let formatted_symbol := format_indian_symbol symbol exchange in
  match existing_analysis today formatted_symbol db with
  | Some existing => (db, Cached existing)
  | None =>
      let analysis_result := run_full_analysis w db formatted_symbol exchange in
      match members analysis_result !! "error" with
      | Some reason => (db, Error reason)
      | None =>
          match sql_insert today
                  (insert_params formatted_symbol exchange analysis_result)
                  (price analysis_result) db with
          | Some db' =>
              match last db' with
              | Some new_decision => (db', Fresh new_decision)
              | None => (db, Crashed)
              end
          | None => (db, Crashed)
          end
      end
  end.

(** [decision IN ('BUY', 'SELL')] *)
Definition is_trade (r : DecisionRow) : bool :=
  String.eqb (decision r) "BUY" || String.eqb (decision r) "SELL".

(** [profit_loss > 0] as the database compares: a null is not above zero,
    and NaN sorts above every number. *)
Definition above_zero (v : option float) : bool :=
  match v with
  | None => false
  | Some x => PrimFloat.ltb 0 x || PrimFloat.is_nan x
  end.

(** The two counts of [get_performance_summary]:
    [SELECT COUNT( * ) ... WHERE profit_loss IS NOT NULL AND decision IN
    ('BUY', 'SELL')] and [... WHERE profit_loss > 0 AND decision IN ...]. *)
Definition total_trades (db : list DecisionRow) : nat :=
  length (filter (fun r => is_Some (profit_loss r) ∧ is_trade r = true) db).

Definition profitable_trades (db : list DecisionRow) : nat :=
  length (filter (fun r => above_zero (profit_loss r) = true
                           ∧ is_trade r = true) db).

End Endpoints.

(** ** Relations between a table before and after a job *)

Module Shapes.
Import Store WeeklyPredictory.

(** A row is as it was, or differs in [profit_loss] only, which is set. *)
Definition scored_step (r r' : DecisionRow) : Prop :=
  r' = r ∨ ∃ v, r' = set_profit_loss v r.

(** [id] is the key of [weekly_index_predictions]. *)
Definition forecast_key (db : list WeeklyForecast) : Prop :=
  NoDup (f_id <$> db).

(** At most one row for a symbol and a week start. *)
Definition one_per_week (db : list WeeklyForecast) : Prop :=
  NoDup ((fun r => (f_symbol r, week_start_date r)) <$> db).

(** The character occurs in the string. *)
Fixpoint occurs (c : ascii) (s : string) : bool :=
  match s with
  | EmptyString => false
  | String c' rest => Ascii.eqb c' c || occurs c rest
  end.

(** What a run on a frame of prices does to one row. *)
Definition settle (latest : gmap string float) (r : DecisionRow)
  : DecisionRow :=
  if UpdatedPnl.eligible r
  then match UpdatedPnl.reconcile latest r with
       | UpdatedPnl.Update v => set_profit_loss v r
       | UpdatedPnl.Skip | UpdatedPnl.Raised => r
       end
  else r.

(** The event reports a stock the run could not save. *)
Definition is_failure (ev : AgentWorker.event) : bool :=
  match ev with
  | AgentWorker.CouldNotAnalyze _ _ | AgentWorker.DatabaseError _ => true
  | _ => false
  end.

(** No reply of the model has a member named ["symbol"]. *)
Definition keeps_symbol (w : App.world) : Prop :=
  ∀ s e close db reply,
    App.chain_invoke w s e close db = inr reply → reply !! "symbol" = None.

(** What a run of the evaluation does to one row, [last_week_start] being
    the week the run selects. *)
Definition grade (download : string → Z → Z → option frame)
    (last_week_start : Z) (r : WeeklyForecast) : WeeklyForecast :=
  if to_evaluate last_week_start r
  then match evaluate download r with
       | Update p s => set_evaluation p s r
       | Skip | Raised => r
       end
  else r.

(** At most one decision for a symbol and a day. *)
Definition one_per_day (db : list DecisionRow) : Prop :=
  NoDup ((fun r => (d_symbol r, d_date r)) <$> db).

End Shapes.

(** ** The wording of the specification, and the relations the properties
    below are stated with *)

Module Contract.
Import Store WeeklyPredictory.

(** "decision must be one of {BUY, SELL, HOLD}; confidence one of
    {Low, Medium, High}" *)
Definition judgment_schema (r : DecisionRow) : bool :=
  bool_decide (decision r ∈ ["BUY"; "SELL"; "HOLD"])
  && bool_decide (confidence r ∈ ["Low"; "Medium"; "High"]).


(** A running sum, from the left, as the loop adds. *)
Definition sum_from (start : float) (errors : list float) : float :=
  foldl PrimFloat.add start errors.

(** "a matching trading-day close": the close of the row of the frame that
    is of that day. *)
Definition trading_close (day_date : Z) (actual_hist : frame) : option float :=
  snd <$> List.find (fun row => Z.eqb (fst row) day_date) actual_hist.

(** "for each predicted day that has a matching trading-day close, compute
    diff_percent": the errors of those days, in order, the days being
    numbered from [i]. *)
Fixpoint traded_errors (actual_hist : frame) (week_start : Z) (i : Z)
    (predicted_days : list DailyPrediction) : list float :=
  match predicted_days with
  | [] => []
  | daily_pred :: rest =>
      match trading_close (week_start + i) actual_hist with
      | Some actual_price =>
          diff_percent actual_price (predicted_price daily_pred)
          :: traded_errors actual_hist week_start (i + 1) rest
      | None => traded_errors actual_hist week_start (i + 1) rest
      end
  end.

(** "average these per-day errors across the days that had actual data" *)
Definition mean_over_matched (actual_hist : frame) (week_start : Z)
    (predicted_days : list DailyPrediction) : float :=
  let errors := traded_errors actual_hist week_start 0 predicted_days in
  (sum_from 0 errors / float_of_len errors)%float.


(** "exactly 5 entries ordered Monday→Friday" *)
Definition monday_to_friday (daily_predictions : list DailyPrediction) : bool :=
  bool_decide (day <$> daily_predictions
               = ["Monday"; "Tuesday"; "Wednesday"; "Thursday"; "Friday"]).

(** Both evaluation columns are null, or neither is. *)
Definition evaluation_whole (r : WeeklyForecast) : bool :=
  match actual_closing_price r, performance_summary r with
  | None, None | Some _, Some _ => true
  | _, _ => false
  end.

(** A row is as it was, or has both evaluation columns written. *)
Definition whole_step (r r' : WeeklyForecast) : Prop :=
  r' = r ∨ ∃ p s, r' = set_evaluation p s r.

(** What the generation stores for a row: the list the reply of the model
    for the row's symbol holds, as parsed out of the raw text. *)
Definition stored_as_returned (json_loads : string → option response)
    (m : market) (today : Z) (r : WeeklyForecast) : Prop :=
  ∃ data_summary raw_response json response daily_predictions,
    history_1y m (f_symbol r) = Some data_summary
    ∧ chain_invoke m (f_symbol r) (week_start today) (week_end today)
        data_summary = Some raw_response
    ∧ json_match raw_response = Some json
    ∧ json_loads json = Some response
    ∧ r_daily_predictions response = Some daily_predictions
    ∧ daily_predictions_json r = Some daily_predictions.

End Contract.

(** ** Sample data *)

Module Sample.
Import Store.

Definition row (i date : Z) (symbol call : string) (price : float)
    (pl : option float) : DecisionRow :=
  mkDecision i symbol "NSE" date (Some price) call "High"
    "neutral" "fair" "quiet" "wait" pl.

(** Day 100 is today. *)
Definition buy_tcs := row 1 100 "TCS.NS" "BUY" 3500 None.
Definition sell_tcs := row 2 99 "TCS.NS" "SELL" 3500 None.
Definition hold_infy := row 3 100 "INFY.NS" "HOLD" 1500 None.
Definition scored_infy := row 4 98 "INFY.NS" "BUY" 1500 (Some 1.5%float).

Definition ledger : list DecisionRow :=
  [buy_tcs; sell_tcs; hold_infy; scored_infy].

(** A reply in the shape the prompt asks for. *)
Definition reply (call sure : string) : gmap string string :=
  {[ "decision" := call; "confidence" := sure;
     "technical_summary" := "momentum is neutral";
     "fundamental_summary" := "fairly valued";
     "sentiment_summary" := "quiet";
     "final_summary" := "wait" ]}.

(** A model that keeps to the contract. *)
Definition plain_world : App.world :=
  App.mkWorld (fun _ => App.HistClose 1510)
    (fun _ _ _ _ => inr (reply "BUY" "High")).

(** A model that answers outside the two enumerations. *)
Definition loose_world : App.world :=
  App.mkWorld (fun _ => App.HistClose 1510)
    (fun _ _ _ _ => inr (reply "STRONG BUY" "Certain")).

(** A model whose reply carries a member named ["symbol"]. *)
Definition naming_world : App.world :=
  App.mkWorld (fun _ => App.HistClose 1510)
    (fun _ _ _ _ => inr (<[ "symbol" := "TCS.NS" ]> (reply "BUY" "High"))).

Definition watchlist : list AgentWorker.WatchlistEntry :=
  [AgentWorker.mkWatch 1 "TCS.NS" "NSE"; AgentWorker.mkWatch 2 "TCS.NS" "NSE";
   AgentWorker.mkWatch 2 "WIPRO.NS" "NSE"].

(** Last week ran from day 7, a Monday, to day 11; today is day 14. *)
Definition week (mon tue wed thu fri : float)
  : list WeeklyPredictory.DailyPrediction :=
  [WeeklyPredictory.mkDaily "Monday" mon;
   WeeklyPredictory.mkDaily "Tuesday" tue;
   WeeklyPredictory.mkDaily "Wednesday" wed;
   WeeklyPredictory.mkDaily "Thursday" thu;
   WeeklyPredictory.mkDaily "Friday" fri].

Definition nifty : WeeklyPredictory.WeeklyForecast :=
  WeeklyPredictory.mkForecast 1 "^NSEI" 4 7 11
    (Some (week 100 100 100 100 100)) "range-bound" None None.

Definition sensex : WeeklyPredictory.WeeklyForecast :=
  WeeklyPredictory.mkForecast 2 "^BSESN" 4 7 11
    (Some (week 0 100 100 100 100)) "range-bound" None None.

Definition forecasts : list WeeklyPredictory.WeeklyForecast := [nifty; sensex].

(** The Nifty traded on Monday only; the Sensex on all five days. *)
Definition closes (symbol : string) (start stop : Z)
  : option WeeklyPredictory.frame :=
  if String.eqb symbol "^NSEI" then Some [(7, 150%float)]
  else if String.eqb symbol "^BSESN"
  then Some [(7, 150%float); (8, 150%float); (9, 150%float);
             (10, 150%float); (11, 150%float)]
  else None.

(** A model that forecasts two days only, with prose around the object. *)
Definition short_market : WeeklyPredictory.market :=
  WeeklyPredictory.mkMarket
    (fun _ => Some (WeeklyPredictory.mkDataSummary 150 160 120 148 140))
    (fun _ _ _ _ => Some "Here is the forecast: {two days} I hope it helps.").

Definition short_loads (json : string) : option WeeklyPredictory.response :=
  if String.eqb json "{two days}"
  then Some (WeeklyPredictory.mkResponse (Some "flat")
               (Some [WeeklyPredictory.mkDaily "Monday" 151;
                      WeeklyPredictory.mkDaily "Tuesday" 152]))
  else None.

(** Two stocks that both have a row of day 100. *)
Definition decided_watchlist : list AgentWorker.WatchlistEntry :=
  [AgentWorker.mkWatch 1 "TCS.NS" "NSE"; AgentWorker.mkWatch 1 "INFY.NS" "NSE"].

(** A forecast of an earlier week, one already evaluated, and one that was
    stored without predictions. *)
Definition earlier : WeeklyPredictory.WeeklyForecast :=
  WeeklyPredictory.mkForecast 3 "^NSEI" (-3) 0 4
    (Some (week 100 100 100 100 100)) "range-bound" None None.

Definition graded : WeeklyPredictory.WeeklyForecast :=
  WeeklyPredictory.mkForecast 4 "^NSEI" 4 7 11
    (Some (week 100 100 100 100 100)) "range-bound" (Some 150%float)
    (Some (WeeklyPredictory.mkSummary 10 [("Monday", 50%float)])).

Definition blank : WeeklyPredictory.WeeklyForecast :=
  WeeklyPredictory.mkForecast 5 "^BSESN" 4 7 11 None "range-bound" None None.

Definition archive : list WeeklyPredictory.WeeklyForecast :=
  [nifty; sensex; earlier; graded; blank].

(** A market with a Nifty forecast in shape and no Sensex history. *)
Definition half_market : WeeklyPredictory.market :=
  WeeklyPredictory.mkMarket
    (fun symbol =>
       if String.eqb symbol "^NSEI"
       then Some (WeeklyPredictory.mkDataSummary 150 160 120 148 140)
       else None)
    (fun _ _ _ _ => Some "{five days}").

Definition full_loads (json : string) : option WeeklyPredictory.response :=
  if String.eqb json "{five days}"
  then Some (WeeklyPredictory.mkResponse (Some "flat")
               (Some (week 151 152 153 154 155)))
  else None.

End Sample.

(** * Properties *)

(** ** Outcome reconciliation *)

Section Reconciliation.
Import Store UpdatedPnl.

Implicit Types (db decisions : list DecisionRow) (dec r : DecisionRow).
Implicit Types (latest : gmap string float) (k : nat).

Lemma key_injective db r1 r2 :
  primary_key db → r1 ∈ db → r2 ∈ db → d_id r1 = d_id r2 → r1 = r2.
Proof.
  unfold primary_key. intros Hnd H1 H2 Hid.
  apply list_elem_of_lookup in H1 as [i Hi].
  apply list_elem_of_lookup in H2 as [j Hj].
  assert (i = j) as ->.
  { eapply NoDup_lookup; [exact Hnd | |].
    - rewrite list_lookup_fmap, Hi. reflexivity.
    - rewrite list_lookup_fmap, Hj. simpl. by rewrite Hid. }
  congruence.
Qed.

Lemma sql_update_ids v i db : d_id <$> sql_update v i db = d_id <$> db.
Proof.
  unfold sql_update. rewrite <- list_fmap_compose.
  apply list_fmap_ext. intros _ r _. simpl. by destruct (d_id r =? i).
Qed.

Lemma process_ids latest db dec : d_id <$> process latest db dec = d_id <$> db.
Proof.
  unfold process. destruct (reconcile latest dec); auto using sql_update_ids.
Qed.

Lemma sql_update_other v i db k r :
  db !! k = Some r → d_id r ≠ i → sql_update v i db !! k = Some r.
Proof.
  intros Hk Hne. unfold sql_update. rewrite list_lookup_fmap, Hk. simpl.
  destruct (Z.eqb_spec (d_id r) i); congruence.
Qed.

Lemma sql_update_hit v db k r :
  db !! k = Some r → sql_update v (d_id r) db !! k = Some (set_profit_loss v r).
Proof.
  intros Hk. unfold sql_update. rewrite list_lookup_fmap, Hk. simpl.
  by rewrite Z.eqb_refl.
Qed.

(** Rows whose id none of the processed decisions carries stay as they are. *)
Lemma foldl_process_other latest decisions : ∀ db k r,
  db !! k = Some r →
  Forall (fun dec => d_id dec ≠ d_id r) decisions →
  foldl (process latest) db decisions !! k = Some r.
Proof.
  induction decisions as [|dec decisions IH]; intros db k r Hk Hall; [done|].
  apply Forall_cons in Hall as [Hne Hall]. simpl. apply IH; [|done].
  unfold process. destruct (reconcile latest dec); try done.
  apply sql_update_other; [done | congruence].
Qed.

Lemma select_decisions_elem db dec :
  dec ∈ select_decisions db ↔ dec ∈ db ∧ eligible dec = true.
Proof. unfold select_decisions. rewrite list_elem_of_filter. tauto. Qed.

Lemma select_decisions_key db :
  primary_key db → primary_key (select_decisions db).
Proof.
  unfold primary_key, select_decisions. intros Hnd.
  eapply sublist_NoDup; [exact Hnd|].
  apply fmap_sublist, sublist_filter.
Qed.

(** A row the selection leaves out is not touched by the run. *)
Lemma unselected_unchanged data db k r :
  primary_key db → db !! k = Some r → eligible r = false →
  update_profit_loss data db !! k = Some r.
Proof.
  intros Hkey Hk Hel. unfold update_profit_loss.
  destruct (select_decisions db) as [|d0 ds] eqn:Hsel; [done|].
  destruct (latest_prices _ data) as [latest|]; [|done].
  apply foldl_process_other; [done|].
  apply Forall_forall. intros dec Hin Hid.
  rewrite <- Hsel in Hin. apply select_decisions_elem in Hin as [Hin Hel'].
  assert (dec = r) as ->; [|congruence].
  eapply key_injective; eauto. by eapply list_elem_of_lookup_2.
Qed.

(** A selected row ends up as its own pass over the loop body leaves it. *)
Lemma selected_outcome data db k dec latest :
  primary_key db → db !! k = Some dec → eligible dec = true →
  latest_prices (symbols_of (select_decisions db)) data = Some latest →
  update_profit_loss data db !! k =
    Some (match reconcile latest dec with
          | Update v => set_profit_loss v dec
          | Skip | Raised => dec
          end).
Proof.
  intros Hkey Hk Hel Hlatest. unfold update_profit_loss.
  assert (dec ∈ select_decisions db) as Hin.
  { apply select_decisions_elem. split; [by eapply list_elem_of_lookup_2|done]. }
  pose proof (select_decisions_key db Hkey) as Hselkey.
  rewrite Hlatest.
  destruct (select_decisions db) as [|d0 ds] eqn:Hsel; [by apply elem_of_nil in Hin|].
  rewrite <- Hsel in *. clear d0 ds Hsel.
  apply list_elem_of_split in Hin as (l1 & l2 & Hsplit).
  rewrite Hsplit in *. unfold primary_key in Hselkey.
  rewrite fmap_app, fmap_cons in Hselkey.
  apply NoDup_app in Hselkey as (_ & Hl1 & Hl2).
  apply NoDup_cons in Hl2 as [Hl2 _].
  rewrite foldl_app. simpl.
  assert (foldl (process latest) db l1 !! k = Some dec) as Hmid.
  { apply foldl_process_other; [done|]. apply Forall_forall.
    intros d Hd Hid. apply (Hl1 (d_id d)).
    - apply list_elem_of_fmap. eauto.
    - rewrite Hid. apply list_elem_of_here. }
  assert (Forall (fun d => d_id d ≠ d_id dec) l2) as Hrest.
  { apply Forall_forall. intros d Hd Hid. apply Hl2.
    apply list_elem_of_fmap. eauto. }
  apply foldl_process_other.
  - unfold process. destruct (reconcile latest dec); try done.
    by apply sql_update_hit.
  - destruct (reconcile latest dec); done.
Qed.

Lemma foldl_process_ids latest decisions : ∀ db,
  d_id <$> foldl (process latest) db decisions = d_id <$> db.
Proof.
  induction decisions as [|dec decisions IH]; intros db; [done|].
  simpl. by rewrite IH, process_ids.
Qed.

Lemma update_profit_loss_key data db :
  primary_key db → primary_key (update_profit_loss data db).
Proof.
  unfold primary_key, update_profit_loss.
  destruct (select_decisions db); [done|].
  destruct (latest_prices _ data); [|done].
  by rewrite foldl_process_ids.
Qed.

Lemma runs_unselected feeds : ∀ db k r,
  primary_key db → db !! k = Some r → eligible r = false →
  runs feeds db !! k = Some r.
Proof.
  unfold runs.
  induction feeds as [|data feeds IH]; intros db k r Hkey Hk Hel; [done|].
  simpl. apply IH; [by apply update_profit_loss_key | | done].
  by apply unselected_unchanged.
Qed.

(** C2. The holiday guard: a selected decision whose fetched price is
    closer than 0.01 to its decision price is skipped, and its row, with
    its null [profit_loss], is what the run leaves in the table. *)
Theorem holiday_guard_leaves_null data db k dec current_price decision_price :
  primary_key db → db !! k = Some dec → eligible dec = true →
  current_price_of data db (d_symbol dec) = Some current_price →
  price_at_decision dec = Some decision_price →
  PrimFloat.ltb (PrimFloat.abs (current_price - decision_price)) 0.01 = true →
  update_profit_loss data db !! k = Some dec ∧ profit_loss dec = None.
Proof.
  intros Hkey Hk Hel Hcur Hdp Hclose. split.
  - unfold current_price_of in Hcur.
    destruct (latest_prices _ data) as [latest|] eqn:Hlatest; [|done].
    simpl in Hcur.
    rewrite (selected_outcome data db k dec latest) by done.
    unfold reconcile. rewrite Hcur, Hdp, Hclose.
    by destruct (PrimFloat.is_nan current_price).
  - unfold eligible in Hel. by destruct (profit_loss dec).
Qed.

(** C3. A selected decision with a price on the feed, a decision price
    that is present and not zero, and a move of at least 0.01 gets the
    percentage change as its [profit_loss] when it is a BUY, and that
    percentage times -1 when it is a SELL. *)
Theorem reconciled_profit_loss data db k dec current_price decision_price :
  primary_key db → db !! k = Some dec → eligible dec = true →
  current_price_of data db (d_symbol dec) = Some current_price →
  PrimFloat.is_nan current_price = false →
  price_at_decision dec = Some decision_price →
  PrimFloat.ltb (PrimFloat.abs (current_price - decision_price)) 0.01 = false →
  PrimFloat.eqb decision_price 0 = false →
  let change :=
    (((current_price - decision_price) / decision_price) * 100)%float in
  (decision dec = "BUY" →
     update_profit_loss data db !! k = Some (set_profit_loss change dec)
     ∧ profit_loss <$> update_profit_loss data db !! k
       = Some (Some change)) ∧
  (decision dec = "SELL" →
     update_profit_loss data db !! k
       = Some (set_profit_loss (change * -1)%float dec)
     ∧ profit_loss <$> update_profit_loss data db !! k
       = Some (Some (change * -1)%float)).
Proof.
  intros Hkey Hk Hel Hcur Hnan Hdp Hfar Hnz change.
  unfold current_price_of in Hcur.
  destruct (latest_prices _ data) as [latest|] eqn:Hlatest; [|done].
  simpl in Hcur.
  rewrite (selected_outcome data db k dec latest) by done.
  unfold reconcile. rewrite Hcur, Hnan, Hdp, Hfar, Hnz.
  split; intros ->; split; reflexivity.
Qed.

(** C4. A HOLD decision is outside the selection, so no run of the job,
    whatever the feeds, changes its row: a null [profit_loss] stays null. *)
Theorem hold_never_scored feeds db k dec :
  primary_key db → db !! k = Some dec → decision dec = "HOLD" →
  runs feeds db !! k = Some dec.
Proof.
  intros Hkey Hk Hhold. apply runs_unselected; [done..|].
  unfold eligible. rewrite Hhold. by destruct (profit_loss dec).
Qed.

(** C5. [profit_loss] is written once: a row that already carries a value
    is outside the selection, and every later run leaves the row, and so
    the value, as it is. *)
Theorem profit_loss_write_once feeds db k dec v :
  primary_key db → db !! k = Some dec → profit_loss dec = Some v →
  runs feeds db !! k = Some dec.
Proof.
  intros Hkey Hk Hpl. apply runs_unselected; [done..|].
  unfold eligible. by rewrite Hpl.
Qed.

Lemma sample_ledger_key : primary_key Sample.ledger.
Proof. apply (bool_decide_unpack _). by vm_compute. Defined.

Lemma holiday_guard_leaves_null_witness :
  update_profit_loss (UpdatedPnl.Series 3500.009) Sample.ledger !! 0%nat
    = Some Sample.buy_tcs
  ∧ profit_loss Sample.buy_tcs = None.
Proof.
  apply (holiday_guard_leaves_null (UpdatedPnl.Series 3500.009) Sample.ledger
           0 Sample.buy_tcs 3500.009 3500 sample_ledger_key);
    vm_compute; reflexivity.
Defined.

Lemma reconciled_profit_loss_witness :
  (update_profit_loss (UpdatedPnl.Series 3605) Sample.ledger !! 0%nat
     = Some (set_profit_loss 3 Sample.buy_tcs)
   ∧ profit_loss <$> update_profit_loss (UpdatedPnl.Series 3605)
                       Sample.ledger !! 0%nat
     = Some (Some 3%float))
  ∧ (update_profit_loss (UpdatedPnl.Series 3605) Sample.ledger !! 1%nat
       = Some (set_profit_loss (-3) Sample.sell_tcs)
     ∧ profit_loss <$> update_profit_loss (UpdatedPnl.Series 3605)
                         Sample.ledger !! 1%nat
       = Some (Some (-3)%float)).
Proof.
  split.
  - refine (proj1 (reconciled_profit_loss (UpdatedPnl.Series 3605)
             Sample.ledger 0 Sample.buy_tcs 3605 3500 sample_ledger_key
             _ _ _ _ _ _ _) _); vm_compute; reflexivity.
  - refine (proj2 (reconciled_profit_loss (UpdatedPnl.Series 3605)
             Sample.ledger 1 Sample.sell_tcs 3605 3500 sample_ledger_key
             _ _ _ _ _ _ _) _); vm_compute; reflexivity.
Defined.

Lemma hold_never_scored_witness :
  runs [UpdatedPnl.Series 3605; Frame {[ "INFY.NS" := 1600%float ]}]
       Sample.ledger !! 2%nat
    = Some Sample.hold_infy.
Proof.
  apply (hold_never_scored _ Sample.ledger 2 Sample.hold_infy
           sample_ledger_key); reflexivity.
Defined.

Lemma profit_loss_write_once_witness :
  runs [Frame {[ "INFY.NS" := 1600%float ]}; UpdatedPnl.Series 3605]
       Sample.ledger !! 3%nat
    = Some Sample.scored_infy.
Proof.
  apply (profit_loss_write_once _ Sample.ledger 3 Sample.scored_infy 1.5
           sample_ledger_key); reflexivity.
Defined.

End Reconciliation.

(** ** The daily recommendation job *)

Section DailyJob.
Import Store App AgentWorker.

Implicit Types (db : list DecisionRow) (log : list event) (w : world).

Lemma has_today_app today symbol db rows :
  has_today today symbol db = true →
  has_today today symbol (db ++ rows) = true.
Proof.
  unfold has_today. rewrite existsb_app. intros ->. reflexivity.
Qed.

Lemma sql_insert_appends today params price db db' :
  sql_insert today params price db = Some db' →
  ∃ row, db' = db ++ [row] ∧ params !! "symbol" = Some (d_symbol row).
Proof.
  unfold sql_insert. intros H.
  repeat match type of H with
         | (_ ≫= _) = Some _ =>
             apply bind_Some in H as (? & ? & H)
         end.
  injection H as <-. eexists; split; [reflexivity|]. simpl. done.
Qed.

(** The check of the loop: a symbol with a row of today is left alone. *)
Lemma visit_already_today w today db log symbol exchange :
  has_today today symbol db = true →
  visit w today (db, log) (symbol, exchange) = (db, log ++ [AlreadyToday symbol]).
Proof. intros H. unfold visit. by rewrite H. Qed.

(** What one pass over a stock can do to the table and to the log. *)
Lemma visit_cases w today db log stock :
  ∃ rows added,
    visit w today (db, log) stock = (db ++ rows, log ++ added)
    ∧ (has_today today stock.1 db = true →
         rows = [] ∧ added = [AlreadyToday stock.1])
    ∧ (∀ e, e ∈ added →
         e = AlreadyToday stock.1 ∨ e = NeedsAnalysis stock.1
         ∨ e = Saved stock.1 ∨ e = DatabaseError stock.1
         ∨ ∃ reason, e = CouldNotAnalyze stock.1 reason)
    ∧ (∀ row, row ∈ rows →
         insert_params stock.1 stock.2
           (run_full_analysis w db stock.1 stock.2) !! "symbol"
         = Some (d_symbol row)).
Proof.
  destruct stock as [symbol exchange]. simpl. unfold visit.
  destruct (has_today today symbol db) eqn:Hhas.
  { exists [], [AlreadyToday symbol]. rewrite app_nil_r.
    repeat split; try done.
    - intros e ->%list_elem_of_singleton. auto.
    - intros row Hrow. by apply elem_of_nil in Hrow. }
  destruct (members (run_full_analysis w db symbol exchange) !! "error")
    as [reason|] eqn:Herr.
  { exists [], [NeedsAnalysis symbol; CouldNotAnalyze symbol reason].
    rewrite app_nil_r. repeat split; try done.
    - intros e He. apply elem_of_cons in He as [->|He%list_elem_of_singleton]; eauto 6.
    - intros row Hrow. by apply elem_of_nil in Hrow. }
  destruct (sql_insert _ _ _ db) as [db'|] eqn:Hins.
  - apply sql_insert_appends in Hins as (row & -> & Hsym).
    exists [row], [NeedsAnalysis symbol; Saved symbol].
    repeat split; try done.
    + intros e He. apply elem_of_cons in He as [->|He%list_elem_of_singleton]; eauto 6.
    + intros r ->%list_elem_of_singleton. done.
  - exists [], [NeedsAnalysis symbol; DatabaseError symbol].
    rewrite app_nil_r. repeat split; try done.
    + intros e He. apply elem_of_cons in He as [->|He%list_elem_of_singleton]; eauto 6.
    + intros row Hrow. by apply elem_of_nil in Hrow.
Qed.

(** The symbol of an inserted row is the stock's own, unless the reply of
    the model has a member named ["symbol"], which then takes its place. *)
Lemma insert_params_symbol w db symbol exchange x :
  insert_params symbol exchange (run_full_analysis w db symbol exchange)
    !! "symbol" = Some x →
  x = symbol
  ∨ ∃ close reply,
      chain_invoke w symbol exchange close db = inr reply
      ∧ reply !! "symbol" = Some x.
Proof.
  unfold insert_params, run_full_analysis, error.
  intros [Hm | [Hm Hs]]%lookup_union_Some_raw.
  - right. destruct (stock_history w symbol) as [| e | close]; simpl in Hm;
      try by (apply lookup_singleton_Some in Hm as [? _]).
    destruct (chain_invoke w symbol exchange close db) as [e | reply] eqn:Hc;
      simpl in Hm.
    + by apply lookup_singleton_Some in Hm as [? _].
    + eauto.
  - left. rewrite lookup_insert_eq in Hs. congruence.
Qed.

Lemma run_from w today symbol stocks : ∀ db log,
  has_today today symbol db = true →
  ∃ rows added,
    foldl (visit w today) (db, log) stocks = (db ++ rows, log ++ added)
    ∧ (NeedsAnalysis symbol ∉ added)
    ∧ (Saved symbol ∉ added)
    ∧ (never_names w symbol → Forall (fun r => d_symbol r ≠ symbol) rows).
Proof.
  induction stocks as [|stock stocks IH]; intros db log Hhas.
  { exists [], []. rewrite !app_nil_r. repeat split; try done.
    all: by intros ?%elem_of_nil. }
  cbn [foldl].
  destruct (visit_cases w today db log stock)
    as (rows1 & added1 & -> & Hskip & Hevents & Hrows).
  destruct (IH (db ++ rows1) (log ++ added1)) as
    (rows2 & added2 & -> & Hna & Hsv & Hsym); [by apply has_today_app|].
  exists (rows1 ++ rows2), (added1 ++ added2). rewrite !app_assoc.
  assert (stock.1 = symbol → rows1 = [] ∧ added1 = [AlreadyToday symbol])
    as Hsame by (intros <-; auto).
  split; [done|]. repeat split.
  - intros [He | He]%elem_of_app; [|done].
    destruct (decide (stock.1 = symbol)) as [Heq | Hne].
    + destruct (Hsame Heq) as [_ ->].
      by apply list_elem_of_singleton in He.
    + apply Hevents in He as [He|[He|[He|[He|[? He]]]]]; congruence.
  - intros [He | He]%elem_of_app; [|done].
    destruct (decide (stock.1 = symbol)) as [Heq | Hne].
    + destruct (Hsame Heq) as [_ ->].
      by apply list_elem_of_singleton in He.
    + apply Hevents in He as [He|[He|[He|[He|[? He]]]]]; congruence.
  - intros Hnever. apply Forall_app. split; [|by apply Hsym].
    apply Forall_forall. intros row Hrow Hbad.
    destruct (decide (stock.1 = symbol)) as [Heq | Hne].
    + destruct (Hsame Heq) as [-> _]. by apply elem_of_nil in Hrow.
    + apply Hrows, insert_params_symbol in Hrow
        as [Hown | (close & reply & Hreply & Hnamed)].
      * congruence.
      * rewrite Hbad in Hnamed. by eapply Hnever.
Qed.

Lemma rows_of_app_others symbol db rows :
  Forall (fun r => d_symbol r ≠ symbol) rows →
  rows_of symbol (db ++ rows) = rows_of symbol db.
Proof.
  intros Hall. unfold rows_of. rewrite filter_app.
  induction Hall as [|r rows Hr _ IH]; [by rewrite filter_nil, app_nil_r|].
  rewrite filter_cons. by destruct (decide (d_symbol r = symbol)).
Qed.

(** X29. A symbol that has a row of today is skipped by the pass over it
    before any analysis or insert, so the run neither analyses nor saves
    for it; and the run adds no row of that symbol as long as no reply of
    the model carries a member named ["symbol"] with that symbol as value. *)
Theorem decided_today_is_skipped w today watchlist db symbol :
  has_today today symbol db = true →
  (∀ exchange log,
     visit w today (db, log) (symbol, exchange)
     = (db, log ++ [AlreadyToday symbol]))
  ∧ (NeedsAnalysis symbol ∉ (run_proactive_analysis w today watchlist db).2)
  ∧ (Saved symbol ∉ (run_proactive_analysis w today watchlist db).2)
  ∧ (never_names w symbol →
       rows_of symbol (run_proactive_analysis w today watchlist db).1
       = rows_of symbol db).
Proof.
  intros Hhas. split; [intros; by apply visit_already_today|].
  unfold run_proactive_analysis.
  destruct (run_from w today symbol (unique_stocks watchlist) db [] Hhas)
    as (rows & added & -> & Hna & Hsv & Hsym).
  simpl. repeat split; try done.
  intros Hnever. by apply rows_of_app_others, Hsym.
Qed.

Lemma decided_today_is_skipped_witness :
  (NeedsAnalysis "TCS.NS"
     ∉ (run_proactive_analysis Sample.plain_world 100 Sample.watchlist
          Sample.ledger).2)
  ∧ rows_of "TCS.NS"
      (run_proactive_analysis Sample.plain_world 100 Sample.watchlist
         Sample.ledger).1
    = rows_of "TCS.NS" Sample.ledger.
Proof.
  destruct (decided_today_is_skipped Sample.plain_world 100 Sample.watchlist
              Sample.ledger "TCS.NS") as (_ & Hna & _ & Hrows);
    [reflexivity|].
  split; [exact Hna|]. apply Hrows.
  intros s e close db reply Hreply. simpl in Hreply.
  injection Hreply as <-. vm_compute. discriminate.
Defined.

(** C1. TCS.NS has a row of today and WIPRO.NS has none; the reply for
    WIPRO.NS carries a member named ["symbol"] with the value TCS.NS.  The
    job skips TCS.NS, analyses WIPRO.NS and reports it saved, and the row it
    inserts is a second row of today for TCS.NS: the parameters of the
    insert let the members of the analysis replace the symbol of the stock. *)
Theorem decided_today_overridden :
  has_today 100 "TCS.NS" Sample.ledger = true
  ∧ has_today 100 "WIPRO.NS" Sample.ledger = false
  ∧ length (rows_of "TCS.NS" Sample.ledger) = 2%nat
  ∧ length (rows_of "TCS.NS"
              (run_proactive_analysis Sample.naming_world 100 Sample.watchlist
                 Sample.ledger).1) = 3%nat
  ∧ rows_of "WIPRO.NS"
      (run_proactive_analysis Sample.naming_world 100 Sample.watchlist
         Sample.ledger).1 = []
  ∧ (d_symbol <$> last (run_proactive_analysis Sample.naming_world 100
                          Sample.watchlist Sample.ledger).1,
     d_date <$> last (run_proactive_analysis Sample.naming_world 100
                        Sample.watchlist Sample.ledger).1)
    = (Some "TCS.NS", Some 100)
  ∧ (run_proactive_analysis Sample.naming_world 100 Sample.watchlist
       Sample.ledger).2
    = [AlreadyToday "TCS.NS"; NeedsAnalysis "WIPRO.NS"; Saved "WIPRO.NS"].
Proof. vm_compute. done. Qed.

(** C8. Nothing checks the two enumerations: when the analysis of a stock
    without a row of today comes back with the members the insert names and
    without an ["error"] member, the row is saved with the decision and the
    confidence exactly as the model gave them. *)
Theorem judgment_saved_as_returned w today db log symbol exchange close reply
    call sure technical fundamental sentiment final :
  has_today today symbol db = false →
  stock_history w symbol = HistClose close →
  chain_invoke w symbol exchange close db = inr reply →
  reply !! "error" = None →
  reply !! "decision" = Some call →
  reply !! "confidence" = Some sure →
  reply !! "technical_summary" = Some technical →
  reply !! "fundamental_summary" = Some fundamental →
  reply !! "sentiment_summary" = Some sentiment →
  reply !! "final_summary" = Some final →
  ∃ row,
    visit w today (db, log) (symbol, exchange)
    = (db ++ [row], log ++ [NeedsAnalysis symbol; Saved symbol])
    ∧ decision row = call ∧ confidence row = sure
    ∧ price_at_decision row = Some close ∧ profit_loss row = None.
Proof.
  intros Hhas Hhist Hreply Herr Hd Hc Ht Hf Hs Hfin.
  unfold visit, run_full_analysis. rewrite Hhas, Hhist, Hreply. simpl.
  rewrite Herr. unfold sql_insert, insert_params. simpl.
  assert (∀ key v, reply !! key = Some v →
            (reply ∪ {[ "symbol" := symbol; "exchange" := exchange ]})
              !! key = Some v) as Hget.
  { intros key v Hkey. by apply lookup_union_Some_l. }
  assert (∃ s e,
    (reply ∪ {[ "symbol" := symbol; "exchange" := exchange ]}) !! "symbol"
      = Some s
    ∧ (reply ∪ {[ "symbol" := symbol; "exchange" := exchange ]}) !! "exchange"
      = Some e) as (s & e & Hsym & Hex).
  { destruct (reply !! "symbol") as [s|] eqn:Hs1;
      destruct (reply !! "exchange") as [e|] eqn:He1.
    - exists s, e. eauto.
    - exists s, exchange. split; [eauto|].
      rewrite lookup_union_r by done. by simplify_map_eq.
    - exists symbol, e. split; [|eauto].
      rewrite lookup_union_r by done. by simplify_map_eq.
    - exists symbol, exchange.
      split; rewrite lookup_union_r by done; by simplify_map_eq. }
  rewrite Hsym, Hex, (Hget _ _ Hd), (Hget _ _ Hc), (Hget _ _ Ht),
    (Hget _ _ Hf), (Hget _ _ Hs), (Hget _ _ Hfin).
  simpl. eexists. split; [reflexivity|]. simpl. done.
Qed.

Lemma judgment_saved_as_returned_witness :
  ∃ row,
    visit Sample.loose_world 100 (Sample.ledger, []) ("WIPRO.NS", "NSE")
    = (Sample.ledger ++ [row],
       [] ++ [NeedsAnalysis "WIPRO.NS"; Saved "WIPRO.NS"])
    ∧ decision row = "STRONG BUY" ∧ confidence row = "Certain"
    ∧ price_at_decision row = Some 1510%float ∧ profit_loss row = None.
Proof.
  apply (judgment_saved_as_returned Sample.loose_world 100 Sample.ledger []
           "WIPRO.NS" "NSE" 1510 (Sample.reply "STRONG BUY" "Certain")
           "STRONG BUY" "Certain" "momentum is neutral" "fairly valued"
           "quiet" "wait");
    vm_compute; reflexivity.
Defined.

(** C8, as the specification words it, fails: a reply outside the two
    enumerations is saved as a row. *)
Lemma judgment_outside_schema_saved :
  forallb Contract.judgment_schema Sample.ledger = true
  ∧ forallb Contract.judgment_schema
      (run_proactive_analysis Sample.loose_world 100 Sample.watchlist
         Sample.ledger).1 = false
  ∧ (run_proactive_analysis Sample.loose_world 100 Sample.watchlist
       Sample.ledger).2
    = [AlreadyToday "TCS.NS"; NeedsAnalysis "WIPRO.NS"; Saved "WIPRO.NS"].
Proof. vm_compute. done. Qed.

End DailyJob.

(** ** The weekly forecast job: evaluation of last week *)

Section Evaluation.
Import WeeklyPredictory Contract.

Implicit Types (db : list WeeklyForecast) (pred r : WeeklyForecast).
Implicit Types (actual_hist : frame) (predicted_days : list DailyPrediction).
Implicit Types (download : string → Z → Z → option frame).






(** C6. The forecast of the Nifty was 100 for each day of last week and
    the index closed at 150 on the Monday, its one trading day: the mean of
    the errors over the days with a close is 50, and the evaluation stores
    an average of 0 with an empty breakdown.  The date of a predicted day is
    no label of the index of the frame, so the loop matches no day. *)
Theorem average_ignores_closes :
  trading_close 7 [(7, 150%float)] = Some 150%float
  ∧ close_on 7 [(7, 150%float)] = None
  ∧ mean_over_matched [(7, 150%float)] 7 (Sample.week 100 100 100 100 100)
    = 50%float
  ∧ evaluate Sample.closes Sample.nifty = Update 150 (mkSummary 0 []).
Proof. vm_compute. done. Qed.



Lemma whole_step_trans r1 r2 r3 :
  whole_step r1 r2 → whole_step r2 r3 → whole_step r1 r3.
Proof.
  intros [-> | (p & s & ->)] [-> | (p' & s' & ->)];
    unfold whole_step; eauto.
Qed.

Lemma process_whole download db pred :
  Forall2 whole_step db (process download db pred).
Proof.
  unfold process. destruct (evaluate download pred) as [| | p s].
  - apply Forall2_same_length_lookup_2; [done|].
    intros k r r' H1 H2. left. congruence.
  - apply Forall2_same_length_lookup_2; [done|].
    intros k r r' H1 H2. left. congruence.
  - unfold sql_update. apply Forall2_fmap_r, Forall_Forall2_diag, Forall_forall.
    intros r _. unfold whole_step, compose.
    destruct (f_id r =? f_id pred); eauto.
Qed.

Lemma foldl_process_whole download preds : ∀ db0 db,
  Forall2 whole_step db0 db →
  Forall2 whole_step db0 (foldl (process download) db preds).
Proof.
  induction preds as [|pred preds IH]; intros db0 db H; [done|].
  cbn [foldl]. apply IH.
  apply Forall2_same_length_lookup_2.
  { rewrite (Forall2_length _ _ _ H).
    apply (Forall2_length _ _ _ (process_whole download db pred)). }
  intros k r r'' H1 H3.
  destruct (Forall2_lookup_l _ _ _ _ _ H H1) as (r' & H2 & Hstep1).
  destruct (Forall2_lookup_l _ _ _ _ _ (process_whole download db pred) H2)
    as (r3 & H3' & Hstep2).
  assert (r3 = r'') as -> by congruence.
  by eapply whole_step_trans.
Qed.

Lemma whole_step_keeps r r' :
  whole_step r r' → evaluation_whole r = true → evaluation_whole r' = true.
Proof. by intros [-> | (p & s & ->)]. Qed.

(** C10. After a run of the evaluation every row is either as it was or
    has both [actual_closing_price] and [performance_summary] written by
    the one update; if no row had exactly one of the two filled before,
    none has after. *)
Theorem evaluation_is_atomic download today db :
  (∀ (k : nat) r, db !! k = Some r →
     ∃ r', evaluate_last_week_predictions download today db !! k = Some r'
           ∧ (r' = r ∨ ∃ p s, r' = set_evaluation p s r))
  ∧ (∀ pred,
       download (f_symbol pred) (week_start_date pred) (week_end_date pred + 1)
         = None
       ∨ download (f_symbol pred) (week_start_date pred)
           (week_end_date pred + 1) = Some [] →
       process download db pred = db)
  ∧ (Forall (fun r => evaluation_whole r = true) db →
     Forall (fun r => evaluation_whole r = true)
       (evaluate_last_week_predictions download today db)).
Proof.
  assert (Forall2 whole_step db
            (evaluate_last_week_predictions download today db)) as H.
  { unfold evaluate_last_week_predictions.
    apply foldl_process_whole, Forall_Forall2_diag, Forall_forall.
    intros r _. by left. }
  repeat split.
  - intros k r Hk. destruct (Forall2_lookup_l _ _ _ _ _ H Hk) as (r' & ? & ?).
    eauto.
  - intros pred Hdl. unfold process, evaluate.
    destruct Hdl as [-> | ->]; [done|].
    destruct (daily_predictions_json pred) as [[|d0 rest]|]; try done.
    by destruct (score _ _ _ _ _ _).
  - intros Hall. apply Forall_lookup. intros k r' Hk'.
    destruct (Forall2_lookup_r _ _ _ _ _ H Hk') as (r & Hk & Hstep).
    eapply whole_step_keeps; [exact Hstep|].
    by eapply (Forall_lookup_1 _ _ _ _ Hall).
Qed.

Lemma evaluation_is_atomic_witness :
  Forall (fun r => evaluation_whole r = true)
    (evaluate_last_week_predictions Sample.closes 14 Sample.forecasts).
Proof.
  apply (evaluation_is_atomic Sample.closes 14 Sample.forecasts).
  repeat constructor.
Defined.

End Evaluation.

(** ** The weekly forecast job: generation of next week *)

Section GenerationFacts.
Import WeeklyPredictory Contract.

Variable json_loads : string → option response.
Variable m : market.
Variable today : Z.

Lemma forecast_stored symbol table row :
  forecast json_loads m today symbol table = Some row →
  f_symbol row = symbol
  ∧ week_start_date row = week_start today
  ∧ week_end_date row = week_start today + 4
  ∧ actual_closing_price row = None
  ∧ performance_summary row = None
  ∧ stored_as_returned json_loads m today row.
Proof.
  unfold forecast. intros H.
  apply bind_Some in H as (data_summary & Hhist & H).
  apply bind_Some in H as (raw_response & Hraw & H).
  apply bind_Some in H as (json & Hjson & H).
  apply bind_Some in H as (response & Hresp & H).
  apply bind_Some in H as (daily_predictions & Hdaily & H).
  apply bind_Some in H as (reasoning & Hreason & H).
  injection H as <-. simpl. repeat split.
  exists data_summary, raw_response, json, response, daily_predictions.
  simpl. done.
Qed.

Lemma foldl_visit_stored db (tracked symbols : list string) :
  symbols ⊆ tracked →
  ∀ pending,
  Forall (fun r => f_symbol r ∈ tracked
                   ∧ week_start_date r = week_start today
                   ∧ stored_as_returned json_loads m today r) pending →
  Forall (fun r => f_symbol r ∈ tracked
                   ∧ week_start_date r = week_start today
                   ∧ stored_as_returned json_loads m today r)
    (foldl (visit json_loads m today db) pending symbols).
Proof.
  induction symbols as [|symbol symbols IH]; intros Hsub pending Hall; [done|].
  cbn [foldl]. apply IH.
  { intros x Hx. apply Hsub. by apply list_elem_of_further. }
  unfold visit.
  destruct (exists_for today symbol (db ++ pending)); [done|].
  destruct (forecast json_loads m today symbol (db ++ pending))
    as [row|] eqn:Hrow; [|constructor].
  apply Forall_app. split; [done|]. apply Forall_singleton.
  apply forecast_stored in Hrow as (Hs & Hw & _ & _ & _ & Hst).
  repeat split; try done. rewrite Hs. apply Hsub, list_elem_of_here.
Qed.

Example json_match_prose :
  json_match "Here is the forecast: {two days} I hope it helps."
  = Some "{two days}".
Proof. reflexivity. Qed.

Example json_match_greedy :
  json_match "first {a} then {b} done" = Some "{a} then {b}".
Proof. reflexivity. Qed.

Example json_match_none : json_match "} no object {" = None.
Proof. reflexivity. Qed.

(** C9. Every row the generation adds is a row of a tracked index for the
    coming week, and its [daily_predictions] is the list found in the reply
    of the model, stored as it came: nothing checks its length, its order or
    its day names. *)
Theorem forecast_stored_as_returned db :
  ∃ added,
    generate_new_weekly_predictions json_loads m today db = db ++ added
    ∧ Forall (fun r => f_symbol r ∈ INDICES_TO_PREDICT
                       ∧ week_start_date r = week_start today
                       ∧ stored_as_returned json_loads m today r) added.
Proof.
  unfold generate_new_weekly_predictions. eexists. split; [reflexivity|].
  by apply foldl_visit_stored.
Qed.

End GenerationFacts.

(** C9, as the specification words it, fails: a reply with two days between
    its braces is stored as a row with those two days. *)
Lemma forecast_of_two_days_stored :
  ∃ row rest,
    WeeklyPredictory.generate_new_weekly_predictions Sample.short_loads
      Sample.short_market 14 Sample.forecasts
    = Sample.forecasts ++ row :: rest
    ∧ WeeklyPredictory.week_start_date row = 14
    ∧ WeeklyPredictory.daily_predictions_json row
      = Some [WeeklyPredictory.mkDaily "Monday" 151;
              WeeklyPredictory.mkDaily "Tuesday" 152]
    ∧ Contract.monday_to_friday
        (default [] (WeeklyPredictory.daily_predictions_json row)) = false.
Proof.
  eexists. eexists. split; [vm_compute; reflexivity|]. vm_compute. done.
Qed.

(** ** The symbol format *)

Section SymbolFormat.
Import Endpoints.

Lemma upper_char_idem c : upper_char (upper_char c) = upper_char c.
Proof. destruct c as [[] [] [] [] [] [] [] []]; reflexivity. Qed.

Lemma upper_char_caret c : upper_char c = "^"%char → c = "^"%char.
Proof. destruct c as [[] [] [] [] [] [] [] []]; vm_compute; congruence. Qed.

Lemma upper_idem s : upper (upper s) = upper s.
Proof.
  induction s as [|c s IH]; [done|]. simpl. by rewrite upper_char_idem, IH.
Qed.

Lemma upper_app s t : upper (s +:+ t) = upper s +:+ upper t.
Proof. induction s as [|c s IH]; [done|]. simpl. by rewrite IH. Qed.

Lemma startswith_cons c s :
  startswith (String c s) "^" = Ascii.eqb c "^".
Proof.
  unfold startswith.
  change (String.prefix "^" (String c s))
    with (if ascii_dec "^" c then String.prefix "" s else false).
  destruct (ascii_dec "^" c) as [<- | Hne].
  - by destruct s.
  - symmetry. apply Ascii.eqb_neq. congruence.
Qed.

Lemma startswith_caret s :
  startswith s "^" = true ↔ ∃ rest, s = String "^" rest.
Proof.
  destruct s as [|c rest].
  - split; [done | by intros [? ?]].
  - rewrite startswith_cons, Ascii.eqb_eq. split.
    + intros ->. eauto.
    + intros [? [=]]. done.
Qed.

Lemma startswith_upper s : startswith (upper s) "^" = startswith s "^".
Proof.
  destruct s as [|c s]; [done|].
  change (upper (String c s)) with (String (upper_char c) (upper s)).
  rewrite !startswith_cons.
  destruct (Ascii.eqb_spec c "^") as [-> | Hne]; [done|].
  apply Ascii.eqb_neq. intros Hc. by apply upper_char_caret in Hc.
Qed.

Lemma endswith_refl s : endswith s s = true.
Proof. destruct s; cbn [endswith]; by rewrite String.eqb_refl. Qed.

Lemma endswith_app s t : endswith (s +:+ t) t = true.
Proof.
  induction s as [|c s IH].
  - apply endswith_refl.
  - change (String c s +:+ t) with (String c (s +:+ t)).
    cbn [endswith]. rewrite IH. apply orb_true_r.
Qed.

Lemma startswith_suffixed s t :
  startswith s "^" = false → startswith t "^" = false →
  startswith (s +:+ t) "^" = false.
Proof.
  intros Hs Ht. destruct s as [|c s]; [done|].
  change (String c s +:+ t) with (String c (s +:+ t)).
  by rewrite startswith_cons in *.
Qed.

(** The two shapes [format_indian_symbol] gives to a symbol that is not an
    index. *)
Lemma format_cases symbol exchange :
  startswith symbol "^" = false →
  (format_indian_symbol symbol exchange = upper symbol
   ∧ existsb (endswith (upper symbol)) [".NS"; ".BO"] = true)
  ∨ (∃ suffix, (suffix = ".NS" ∨ suffix = ".BO")
       ∧ format_indian_symbol symbol exchange = upper symbol +:+ suffix
       ∧ existsb (endswith (upper symbol)) [".NS"; ".BO"] = false).
Proof.
  intros Hs. unfold format_indian_symbol. rewrite Hs.
  destruct (existsb (endswith (upper symbol)) [".NS"; ".BO"]) eqn:Hsuf; simpl.
  - by left.
  - right. destruct (String.eqb (upper exchange) "NSE"); eauto.
Qed.

(** X1. Formatting a formatted symbol changes nothing, whatever exchange
    the second call is given. *)
Theorem format_indian_symbol_idempotent symbol exchange exchange' :
  format_indian_symbol (format_indian_symbol symbol exchange) exchange'
  = format_indian_symbol symbol exchange.
Proof.
  destruct (startswith symbol "^") eqn:Hs.
  { unfold format_indian_symbol. by rewrite !Hs. }
  destruct (format_cases symbol exchange Hs)
    as [[-> Hsuf] | (suffix & Hsuffix & -> & _)].
  - unfold format_indian_symbol.
    by rewrite startswith_upper, Hs, !upper_idem, Hsuf.
  - unfold format_indian_symbol.
    rewrite startswith_suffixed; [| by rewrite startswith_upper
                                  | by destruct Hsuffix as [-> | ->]].
    rewrite upper_app, upper_idem.
    assert (upper suffix = suffix) as -> by (by destruct Hsuffix as [-> | ->]).
    assert (existsb (endswith (upper symbol +:+ suffix)) [".NS"; ".BO"] = true)
      as ->; [|done].
    simpl. destruct Hsuffix as [-> | ->]; rewrite endswith_app; simpl;
      [done | apply orb_true_r].
Qed.

(** X2. An index symbol is returned as it is; any other symbol comes out in
    upper case, ending in .NS or .BO, and is still not an index symbol. *)
Theorem format_indian_symbol_shape symbol exchange :
  (startswith symbol "^" = true →
     format_indian_symbol symbol exchange = symbol)
  ∧ (startswith symbol "^" = false →
     upper (format_indian_symbol symbol exchange)
     = format_indian_symbol symbol exchange
     ∧ existsb (endswith (format_indian_symbol symbol exchange))
         [".NS"; ".BO"] = true
     ∧ startswith (format_indian_symbol symbol exchange) "^" = false).
Proof.
  split; intros Hs.
  { unfold format_indian_symbol. by rewrite Hs. }
  destruct (format_cases symbol exchange Hs)
    as [[-> Hsuf] | (suffix & Hsuffix & -> & _)].
  - by rewrite upper_idem, startswith_upper.
  - rewrite upper_app, upper_idem.
    assert (upper suffix = suffix) as -> by (by destruct Hsuffix as [-> | ->]).
    repeat split.
    + simpl. destruct Hsuffix as [-> | ->]; rewrite endswith_app; simpl;
        [done | apply orb_true_r].
    + apply startswith_suffixed; [by rewrite startswith_upper|].
      by destruct Hsuffix as [-> | ->].
Qed.

Lemma format_indian_symbol_shape_witness :
  format_indian_symbol "^NSEI" "BSE" = "^NSEI"
  ∧ upper (format_indian_symbol "reliance" "bse")
    = format_indian_symbol "reliance" "bse"
  ∧ existsb (endswith (format_indian_symbol "reliance" "bse"))
      [".NS"; ".BO"] = true.
Proof.
  split.
  - apply (proj1 (format_indian_symbol_shape "^NSEI" "BSE")). reflexivity.
  - destruct (proj2 (format_indian_symbol_shape "reliance" "bse"))
      as (Hu & He & _); [reflexivity|]. by split.
Defined.

(** X3. The spelling of the letters does not matter: a symbol that is not
    an index, and an exchange, give the same result in lower and in upper
    case. *)
Theorem format_indian_symbol_case symbol exchange :
  startswith symbol "^" = false →
  format_indian_symbol (upper symbol) (upper exchange)
  = format_indian_symbol symbol exchange.
Proof.
  intros Hs. unfold format_indian_symbol.
  by rewrite startswith_upper, Hs, !upper_idem.
Qed.

Lemma format_indian_symbol_case_witness :
  format_indian_symbol (upper "tcs") (upper "nse")
  = format_indian_symbol "tcs" "nse".
Proof. apply format_indian_symbol_case. reflexivity. Defined.

End SymbolFormat.

(** ** More on the outcome reconciliation *)

Section ReconciliationMore.
Import Store UpdatedPnl Endpoints Shapes.

Implicit Types (db : list DecisionRow) (dec r : DecisionRow).
Implicit Types (latest : gmap string float) (k : nat).

Lemma scored_step_trans r1 r2 r3 :
  scored_step r1 r2 → scored_step r2 r3 → scored_step r1 r3.
Proof.
  intros [-> | (v & ->)] [-> | (v' & ->)]; unfold scored_step; eauto.
Qed.

Lemma Forall2_scored_refl db : Forall2 scored_step db db.
Proof. apply Forall_Forall2_diag, Forall_forall. intros r _. by left. Qed.

Lemma Forall2_scored_trans db1 db2 db3 :
  Forall2 scored_step db1 db2 → Forall2 scored_step db2 db3 →
  Forall2 scored_step db1 db3.
Proof.
  intros H12. revert db3.
  induction H12 as [|r1 r2 l1 l2 Hr _ IH]; intros db3 H23.
  - by apply Forall2_nil_inv_l in H23 as ->.
  - apply Forall2_cons_inv_l in H23 as (r3 & l3 & Hr' & Hl & ->).
    constructor; [by eapply scored_step_trans | by apply IH].
Qed.

Lemma process_scored latest db dec :
  Forall2 scored_step db (process latest db dec).
Proof.
  unfold process. destruct (reconcile latest dec) as [| | v];
    try apply Forall2_scored_refl.
  unfold sql_update. apply Forall2_fmap_r, Forall_Forall2_diag, Forall_forall.
  intros r _. unfold scored_step, compose.
  destruct (d_id r =? d_id dec); eauto.
Qed.

Lemma foldl_process_scored latest decisions : ∀ db,
  Forall2 scored_step db (foldl (process latest) db decisions).
Proof.
  induction decisions as [|dec decisions IH]; intros db.
  - apply Forall2_scored_refl.
  - cbn [foldl]. eapply Forall2_scored_trans; [apply process_scored | apply IH].
Qed.

Lemma run_scored data db : Forall2 scored_step db (update_profit_loss data db).
Proof.
  unfold update_profit_loss.
  destruct (select_decisions db) as [|d0 ds]; [apply Forall2_scored_refl|].
  destruct (latest_prices _ data) as [latest|]; [|apply Forall2_scored_refl].
  apply foldl_process_scored.
Qed.

(** X4. A run of the reconciliation keeps the number and the order of the
    rows, and a row it changes differs from before in [profit_loss] only,
    which then holds a value. *)
Theorem only_profit_loss_changes data db :
  length (update_profit_loss data db) = length db
  ∧ Forall2 scored_step db (update_profit_loss data db).
Proof.
  pose proof (run_scored data db) as Hall.
  split; [|exact Hall]. symmetry. by eapply Forall2_length.
Qed.

(** X5. A row stays as it is when the run holds no price for its symbol,
    when that price is NaN, when its decision price is null, or when its
    decision price is zero. *)
Theorem unreconcilable_row_unchanged data db k dec :
  primary_key db → db !! k = Some dec →
  current_price_of data db (d_symbol dec) = None
  ∨ (∃ current_price,
       current_price_of data db (d_symbol dec) = Some current_price
       ∧ PrimFloat.is_nan current_price = true)
  ∨ price_at_decision dec = None
  ∨ (∃ decision_price,
       price_at_decision dec = Some decision_price
       ∧ PrimFloat.eqb decision_price 0 = true) →
  update_profit_loss data db !! k = Some dec.
Proof.
  intros Hkey Hk Hwhy.
  destruct (eligible dec) eqn:Hel; [|by apply unselected_unchanged].
  unfold current_price_of in Hwhy.
  destruct (latest_prices (symbols_of (select_decisions db)) data)
    as [latest|] eqn:Hlatest.
  2: { unfold update_profit_loss. rewrite Hlatest.
       by destruct (select_decisions db). }
  rewrite (selected_outcome data db k dec latest) by done.
  simpl in Hwhy. unfold reconcile. f_equal.
  destruct Hwhy as [-> | [(cp & -> & ->) | [Hdp | (dp & Hdp & Hzero)]]];
    try done.
  - destruct (latest !! d_symbol dec) as [cp|]; [|done].
    destruct (PrimFloat.is_nan cp); [done|]. by rewrite Hdp.
  - destruct (latest !! d_symbol dec) as [cp|]; [|done].
    destruct (PrimFloat.is_nan cp); [done|]. rewrite Hdp, Hzero.
    by destruct (PrimFloat.ltb _ _).
Qed.

Lemma unreconcilable_row_unchanged_witness :
  update_profit_loss (Frame {[ "INFY.NS" := 1600%float ]}) Sample.ledger
    !! 0%nat = Some Sample.buy_tcs.
Proof.
  apply (unreconcilable_row_unchanged _ Sample.ledger 0 Sample.buy_tcs
           sample_ledger_key); [reflexivity|].
  left. vm_compute. reflexivity.
Defined.

Lemma frame_run_rowwise last_row db :
  primary_key db →
  update_profit_loss (Frame last_row) db = settle last_row <$> db.
Proof.
  intros Hkey. apply list_eq. intros k. rewrite list_lookup_fmap.
  destruct (db !! k) as [r|] eqn:Hk; simpl.
  - unfold settle. destruct (eligible r) eqn:Hel.
    + by apply selected_outcome.
    + by apply unselected_unchanged.
  - apply lookup_ge_None. apply lookup_ge_None in Hk.
    by rewrite <- (Forall2_length _ _ _ (run_scored (Frame last_row) db)).
Qed.

Lemma settle_settle latest r : settle latest (settle latest r) = settle latest r.
Proof.
  unfold settle at 2 3. destruct (eligible r) eqn:Hel.
  - destruct (reconcile latest r) as [| | v] eqn:Hout.
    + unfold settle. by rewrite Hel, Hout.
    + unfold settle. by rewrite Hel, Hout.
    + reflexivity.
  - unfold settle. by rewrite Hel.
Qed.

Lemma no_prices_no_change data db :
  (∀ symbols, latest_prices symbols data = None) →
  update_profit_loss data db = db.
Proof.
  intros Hnone. unfold update_profit_loss. rewrite Hnone.
  by destruct (select_decisions db).
Qed.

(** X6. With prices that come as a frame, or with no prices at all, a
    second run on the same feed changes nothing the first run left. *)
Theorem same_feed_twice data db :
  primary_key db → (∀ last, data ≠ UpdatedPnl.Series last) →
  update_profit_loss data (update_profit_loss data db)
  = update_profit_loss data db.
Proof.
  intros Hkey Hframe. destruct data as [| | last | last_row].
  - by rewrite !no_prices_no_change.
  - by rewrite !no_prices_no_change.
  - by destruct (Hframe last).
  - rewrite (frame_run_rowwise last_row db Hkey).
    rewrite frame_run_rowwise.
    + rewrite <- list_fmap_compose. apply list_fmap_ext.
      intros _ r _. apply settle_settle.
    + rewrite <- (frame_run_rowwise last_row db Hkey).
      by apply update_profit_loss_key.
Qed.

Lemma same_feed_twice_witness :
  update_profit_loss (Frame {[ "TCS.NS" := 3605%float ]})
    (update_profit_loss (Frame {[ "TCS.NS" := 3605%float ]}) Sample.ledger)
  = update_profit_loss (Frame {[ "TCS.NS" := 3605%float ]}) Sample.ledger.
Proof.
  apply (same_feed_twice _ Sample.ledger sample_ledger_key). discriminate.
Defined.

End ReconciliationMore.

(** ** The counts of the performance summary *)

Section PerformanceCounts.
Import Store UpdatedPnl Endpoints Shapes.

Implicit Types (db : list DecisionRow).

Lemma filter_length_Forall2 {A} (R : A → A → Prop) (P Q : A → Prop)
    `{!∀ x, Decision (P x)} `{!∀ x, Decision (Q x)} (l l' : list A) :
  (∀ x y, R x y → P x → Q y) → Forall2 R l l' →
  (length (filter P l) ≤ length (filter Q l'))%nat.
Proof.
  intros HPQ Hall. induction Hall as [|x y l l' Hxy _ IH]; [done|].
  rewrite !filter_cons.
  destruct (decide (P x)) as [HP | HP].
  - rewrite decide_True by eauto. simpl. lia.
  - destruct (decide (Q y)); simpl; lia.
Qed.

(** X7. Reconciliation never lowers [total_trades]: a trade that counts as
    scored before a run counts as scored after it. *)
Theorem total_trades_never_drops data db :
  (total_trades db ≤ total_trades (update_profit_loss data db))%nat.
Proof.
  unfold total_trades.
  eapply filter_length_Forall2; [|apply run_scored].
  intros r r' Hstep [Hpl Htrade]. destruct Hstep as [-> | (v & ->)]; [done|].
  split; [by eexists | done].
Qed.

(** X8. The profitable trades are among the scored trades, so the win rate
    that is computed from the two counts never exceeds one hundred percent. *)
Theorem profitable_at_most_total db :
  (profitable_trades db ≤ total_trades db)%nat.
Proof.
  unfold profitable_trades, total_trades.
  eapply (filter_length_Forall2 eq); [|apply Forall_Forall2_diag, Forall_forall; done].
  intros r ? <- [Habove Htrade]. split; [|done].
  destruct (profit_loss r); [by eexists | done].
Qed.

End PerformanceCounts.

(** ** More on the daily recommendation job *)

Section DailyJobMore.
Import Store App AgentWorker Shapes.

Implicit Types (db : list DecisionRow) (log : list event) (w : world).

Lemma has_today_new today symbol db row :
  d_symbol row = symbol → d_date row = today →
  has_today today symbol (db ++ [row]) = true.
Proof.
  intros Hs Hd. unfold has_today. rewrite existsb_app. simpl.
  rewrite Hs, Hd, String.eqb_refl, Z.eqb_refl. simpl. apply orb_true_r.
Qed.

Lemma sql_insert_row today params price db db' :
  sql_insert today params price db = Some db' →
  ∃ row, db' = db ++ [row] ∧ params !! "symbol" = Some (d_symbol row)
         ∧ d_date row = today ∧ profit_loss row = None.
Proof.
  unfold sql_insert. intros H.
  repeat match type of H with
         | (_ ≫= _) = Some _ => apply bind_Some in H as (? & ? & H)
         end.
  injection H as <-. eexists. split; [reflexivity|]. simpl. done.
Qed.

(** The four ways a pass over a stock can end. *)
Lemma visit_outcome w today db log symbol exchange :
  (has_today today symbol db = true
   ∧ visit w today (db, log) (symbol, exchange)
     = (db, log ++ [AlreadyToday symbol]))
  ∨ (∃ ev, is_failure ev = true
       ∧ visit w today (db, log) (symbol, exchange)
         = (db, log ++ [NeedsAnalysis symbol; ev]))
  ∨ (∃ row,
       visit w today (db, log) (symbol, exchange)
       = (db ++ [row], log ++ [NeedsAnalysis symbol; Saved symbol])
       ∧ has_today today symbol db = false
       ∧ d_date row = today
       ∧ insert_params symbol exchange
           (run_full_analysis w db symbol exchange) !! "symbol"
         = Some (d_symbol row)).
Proof.
  unfold visit. destruct (has_today today symbol db) eqn:Hhas; [by left|].
  right.
  destruct (members (run_full_analysis w db symbol exchange) !! "error")
    as [reason|]; [left; by eexists (CouldNotAnalyze _ _)|].
  destruct (sql_insert _ _ _ db) as [db'|] eqn:Hins.
  - right. apply sql_insert_row in Hins as (row & -> & Hsym & Hdate & _).
    by exists row.
  - left. by exists (DatabaseError symbol).
Qed.

Lemma run_trace w today stocks : ∀ db log,
  ∃ rows added,
    foldl (visit w today) (db, log) stocks = (db ++ rows, log ++ added)
    ∧ (length rows ≤ length stocks)%nat
    ∧ (∀ stock, stock ∈ stocks →
         AlreadyToday stock.1 ∈ added ∨ NeedsAnalysis stock.1 ∈ added)
    ∧ (keeps_symbol w → existsb is_failure added = false →
       ∀ stock, stock ∈ stocks →
         has_today today stock.1 (db ++ rows) = true).
Proof.
  induction stocks as [|[symbol exchange] stocks IH]; intros db log.
  { exists [], []. rewrite !app_nil_r. repeat split; try done.
    - by intros ? ?%elem_of_nil.
    - by intros _ _ ? ?%elem_of_nil. }
  cbn [foldl].
  destruct (visit_outcome w today db log symbol exchange)
    as [[Hhas ->] | [(ev & Hev & ->) | (row & -> & _ & Hdate & Hsym)]].
  - destruct (IH db (log ++ [AlreadyToday symbol]))
      as (rows & added & -> & Hlen & Hseen & Hdone).
    exists rows, (AlreadyToday symbol :: added).
    rewrite <- app_assoc. repeat split; try done.
    + simpl. lia.
    + intros stock [-> | Hin]%elem_of_cons.
      * left. apply list_elem_of_here.
      * destruct (Hseen stock Hin); [left | right];
          by apply list_elem_of_further.
    + intros Hkeep Hnone stock [-> | Hin]%elem_of_cons.
      * simpl. by apply has_today_app.
      * by apply Hdone.
  - destruct (IH db (log ++ [NeedsAnalysis symbol; ev]))
      as (rows & added & -> & Hlen & Hseen & Hdone).
    exists rows, (NeedsAnalysis symbol :: ev :: added).
    rewrite <- app_assoc. repeat split; try done.
    + simpl. lia.
    + intros stock [-> | Hin]%elem_of_cons.
      * right. apply list_elem_of_here.
      * destruct (Hseen stock Hin); [left | right];
          by do 2 apply list_elem_of_further.
    + intros Hkeep Hnone. simpl in Hnone. by rewrite Hev in Hnone.
  - destruct (IH (db ++ [row]) (log ++ [NeedsAnalysis symbol; Saved symbol]))
      as (rows & added & -> & Hlen & Hseen & Hdone).
    exists (row :: rows), (NeedsAnalysis symbol :: Saved symbol :: added).
    rewrite <- !app_assoc. repeat split; try done.
    + simpl. lia.
    + intros stock [-> | Hin]%elem_of_cons.
      * right. apply list_elem_of_here.
      * destruct (Hseen stock Hin); [left | right];
          by do 2 apply list_elem_of_further.
    + intros Hkeep Hnone stock [-> | Hin]%elem_of_cons.
      * simpl. change (db ++ row :: rows) with (db ++ [row] ++ rows).
        rewrite app_assoc. apply has_today_app, has_today_new; [|done].
        apply insert_params_symbol in Hsym
          as [Hown | (close & reply & Hreply & Hnamed)]; [done|].
        by rewrite (Hkeep _ _ _ _ _ Hreply) in Hnamed.
      * change (db ++ row :: rows) with (db ++ [row] ++ rows).
        rewrite app_assoc. by apply Hdone.
Qed.

(** X9. The job only appends: the rows that were in the table are still
    there, in place and unchanged, and at most one row is added for each
    distinct stock of the watchlist. *)
Theorem run_appends_only w today watchlist db :
  ∃ rows,
    (run_proactive_analysis w today watchlist db).1 = db ++ rows
    ∧ (length rows ≤ length (unique_stocks watchlist))%nat.
Proof.
  unfold run_proactive_analysis.
  destruct (run_trace w today (unique_stocks watchlist) db [])
    as (rows & added & -> & Hlen & _). by exists rows.
Qed.

(** X10. A failure for one stock does not stop the job: every stock of the
    watchlist is looked at, and the log says for each either that it already
    has an analysis today or that an analysis was started. *)
Theorem every_stock_visited w today watchlist db entry :
  entry ∈ watchlist →
  AlreadyToday (w_symbol entry)
    ∈ (run_proactive_analysis w today watchlist db).2
  ∨ NeedsAnalysis (w_symbol entry)
    ∈ (run_proactive_analysis w today watchlist db).2.
Proof.
  intros Hin. unfold run_proactive_analysis.
  destruct (run_trace w today (unique_stocks watchlist) db [])
    as (rows & added & -> & _ & Hseen & _). simpl.
  apply (Hseen (w_symbol entry, w_exchange entry)).
  unfold unique_stocks. apply elem_of_remove_dups, list_elem_of_fmap.
  by exists entry.
Qed.

Lemma every_stock_visited_witness :
  AlreadyToday "WIPRO.NS"
    ∈ (run_proactive_analysis Sample.plain_world 100 Sample.watchlist
         Sample.ledger).2
  ∨ NeedsAnalysis "WIPRO.NS"
    ∈ (run_proactive_analysis Sample.plain_world 100 Sample.watchlist
         Sample.ledger).2.
Proof.
  apply (every_stock_visited Sample.plain_world 100 Sample.watchlist
           Sample.ledger (mkWatch 2 "WIPRO.NS" "NSE")).
  do 2 apply list_elem_of_further. apply list_elem_of_here.
Defined.

Lemma foldl_visit_decided w today db stocks : ∀ log,
  (∀ stock, stock ∈ stocks → has_today today stock.1 db = true) →
  foldl (visit w today) (db, log) stocks
  = (db, log ++ ((fun stock => AlreadyToday stock.1) <$> stocks)).
Proof.
  induction stocks as [|[symbol exchange] stocks IH]; intros log Hall.
  { by rewrite app_nil_r. }
  cbn [foldl]. rewrite visit_already_today.
  - rewrite IH, <- app_assoc; [done|].
    intros stock Hin. by apply Hall, list_elem_of_further.
  - apply (Hall (symbol, exchange)), list_elem_of_here.
Qed.

(** X11. When every stock of the watchlist has a row of today, the job
    leaves the table as it is and starts no analysis: its log is one
    "already has an analysis" line per distinct stock. *)
Theorem all_decided_noop w today watchlist db :
  (∀ stock, stock ∈ unique_stocks watchlist →
     has_today today stock.1 db = true) →
  run_proactive_analysis w today watchlist db
  = (db, (fun stock => AlreadyToday stock.1) <$> unique_stocks watchlist).
Proof. intros Hall. by apply (foldl_visit_decided w today db _ []). Qed.

Lemma all_decided_noop_witness :
  run_proactive_analysis Sample.loose_world 100 Sample.decided_watchlist
    Sample.ledger
  = (Sample.ledger, [AlreadyToday "TCS.NS"; AlreadyToday "INFY.NS"]).
Proof.
  apply (all_decided_noop Sample.loose_world 100 Sample.decided_watchlist
           Sample.ledger).
  apply Forall_forall. vm_compute. repeat constructor.
Defined.

(** X12. Running the job again on the same day is a no-op after a run that
    saved every stock it analysed, provided the replies of that run had no
    member named ["symbol"]: the second run, whatever the model answers,
    finds a row of today for every stock. *)
Theorem rerun_is_noop w w' today watchlist db :
  keeps_symbol w →
  existsb is_failure (run_proactive_analysis w today watchlist db).2 = false →
  run_proactive_analysis w' today watchlist
    (run_proactive_analysis w today watchlist db).1
  = ((run_proactive_analysis w today watchlist db).1,
     (fun stock => AlreadyToday stock.1) <$> unique_stocks watchlist).
Proof.
  intros Hkeep Hclean.
  apply (foldl_visit_decided w' today _ (unique_stocks watchlist) []).
  unfold run_proactive_analysis in *.
  destruct (run_trace w today (unique_stocks watchlist) db [])
    as (rows & added & Hrun & _ & _ & Hdone).
  rewrite Hrun in *. simpl in *. by apply Hdone.
Qed.

Lemma rerun_is_noop_witness :
  run_proactive_analysis Sample.loose_world 100 Sample.watchlist
    (run_proactive_analysis Sample.plain_world 100 Sample.watchlist
       Sample.ledger).1
  = ((run_proactive_analysis Sample.plain_world 100 Sample.watchlist
        Sample.ledger).1,
     [AlreadyToday "TCS.NS"; AlreadyToday "WIPRO.NS"]).
Proof.
  apply (rerun_is_noop Sample.plain_world Sample.loose_world 100
           Sample.watchlist Sample.ledger).
  - intros s e close db reply Hreply. simpl in Hreply.
    injection Hreply as <-. vm_compute. reflexivity.
  - vm_compute. reflexivity.
Defined.

End DailyJobMore.

(** ** The analysis endpoint *)

Section AnalyzeStock.
Import Store App AgentWorker Endpoints Shapes.

Implicit Types (db : list DecisionRow) (w : world).

Lemma existing_analysis_None today symbol db :
  existing_analysis today symbol db = None ↔ has_today today symbol db = false.
Proof.
  unfold existing_analysis, has_today. rewrite last_None.
  induction db as [|r db IH]; [done|].
  rewrite filter_cons. simpl.
  destruct (decide (d_symbol r = symbol ∧ d_date r = today)) as [[Hs Hd] | Hno].
  - rewrite Hs, Hd, String.eqb_refl, Z.eqb_refl. simpl. split; done.
  - rewrite IH.
    assert (String.eqb (d_symbol r) symbol && (d_date r =? today) = false)
      as ->; [|done].
    apply andb_false_iff.
    destruct (String.eqb_spec (d_symbol r) symbol) as [Hs | Hs]; [|by left].
    right. apply Z.eqb_neq. intros Hd. by apply Hno.
Qed.

Lemma existing_analysis_Some today symbol db row :
  existing_analysis today symbol db = Some row →
  row ∈ db ∧ d_symbol row = symbol ∧ d_date row = today.
Proof.
  unfold existing_analysis. intros Hlast.
  assert (row ∈ filter (fun r => d_symbol r = symbol ∧ d_date r = today) db)
    as Hin.
  { apply last_Some in Hlast as [l ->]. apply elem_of_app. right.
    apply list_elem_of_here. }
  apply list_elem_of_filter in Hin. tauto.
Qed.

Lemma existing_analysis_new today symbol db row :
  d_symbol row = symbol → d_date row = today →
  existing_analysis today symbol (db ++ [row]) = Some row.
Proof.
  intros Hs Hd. unfold existing_analysis. rewrite filter_app.
  rewrite filter_cons, decide_True by done. rewrite filter_nil.
  apply last_snoc.
Qed.

(** X13. When the formatted symbol has a row of today, the endpoint answers
    from the table: it starts no analysis, leaves the table as it is, and
    the row it answers with is a row of that symbol and of today. *)
Theorem analyze_stock_cached w today db user_id symbol exchange :
  has_today today (format_indian_symbol symbol exchange) db = true →
  ∃ row,
    analyze_stock w today db user_id symbol exchange = (db, Cached row)
    ∧ row ∈ db
    ∧ d_symbol row = format_indian_symbol symbol exchange
    ∧ d_date row = today.
Proof.
  intros Hhas. unfold analyze_stock.
  destruct (existing_analysis today (format_indian_symbol symbol exchange) db)
    as [row|] eqn:Hex.
  - exists row. split; [done|]. by apply existing_analysis_Some in Hex.
  - apply existing_analysis_None in Hex. congruence.
Qed.

Lemma analyze_stock_cached_witness :
  ∃ row,
    analyze_stock Sample.loose_world 100 Sample.ledger 7 "tcs" "nse"
    = (Sample.ledger, Cached row)
    ∧ row ∈ Sample.ledger
    ∧ d_symbol row = format_indian_symbol "tcs" "nse"
    ∧ d_date row = 100.
Proof.
  apply (analyze_stock_cached Sample.loose_world 100 Sample.ledger 7
           "tcs" "nse"). reflexivity.
Defined.

(** X14. A call changes the table only when it answers with a fresh
    analysis, and then by appending exactly the row it answers with; a
    cached answer, an error and a failed insert all leave the table as it
    was. *)
Theorem analyze_stock_appends_answer w today db user_id symbol exchange :
  (∃ row,
     analyze_stock w today db user_id symbol exchange
     = (db ++ [row], Fresh row)
     ∧ d_date row = today ∧ profit_loss row = None)
  ∨ ((analyze_stock w today db user_id symbol exchange).1 = db
     ∧ ∀ row, (analyze_stock w today db user_id symbol exchange).2
              ≠ Fresh row).
Proof.
  unfold analyze_stock.
  destruct (existing_analysis _ _ db); [by right|].
  destruct (members _ !! "error"); [by right|].
  destruct (sql_insert _ _ _ db) as [db'|] eqn:Hins; [|by right].
  apply sql_insert_row in Hins as (row & -> & _ & Hdate & Hnull).
  left. exists row. by rewrite last_snoc.
Qed.

(** X15. After a call that answered with a fresh analysis, made from a reply
    without a member named ["symbol"], a second call for the same symbol and
    exchange on the same day is answered from the table with that same row,
    whoever asks and whatever the model would say now. *)
Theorem analyze_stock_twice w w' today db db' user_id user_id' symbol exchange
    row :
  keeps_symbol w →
  analyze_stock w today db user_id symbol exchange = (db', Fresh row) →
  analyze_stock w' today db' user_id' symbol exchange = (db', Cached row).
Proof.
  intros Hkeep Hfirst. unfold analyze_stock in Hfirst.
  destruct (existing_analysis _ _ db); [done|].
  destruct (members _ !! "error"); [done|].
  destruct (sql_insert _ _ _ db) as [db1|] eqn:Hins; [|done].
  apply sql_insert_row in Hins as (row1 & -> & Hsym & Hdate & _).
  rewrite last_snoc in Hfirst. injection Hfirst as <- <-.
  apply insert_params_symbol in Hsym
    as [Hown | (close & reply & Hreply & Hnamed)].
  - unfold analyze_stock. by rewrite existing_analysis_new.
  - by rewrite (Hkeep _ _ _ _ _ Hreply) in Hnamed.
Qed.

Lemma analyze_stock_twice_witness :
  analyze_stock Sample.loose_world 100
    (analyze_stock Sample.plain_world 100 Sample.ledger 7 "wipro" "NSE").1
    8 "wipro" "NSE"
  = ((analyze_stock Sample.plain_world 100 Sample.ledger 7 "wipro" "NSE").1,
     Cached (mkDecision 5 "WIPRO.NS" "NSE" 100 (Some 1510%float) "BUY" "High"
               "momentum is neutral" "fairly valued" "quiet" "wait" None)).
Proof.
  apply (analyze_stock_twice Sample.plain_world Sample.loose_world 100
           Sample.ledger _ 7 8 "wipro" "NSE").
  - intros s e close db reply Hreply. simpl in Hreply.
    injection Hreply as <-. vm_compute. reflexivity.
  - vm_compute. reflexivity.
Defined.

End AnalyzeStock.

(** ** More on the evaluation of last week *)

Section EvaluationMore.
Import WeeklyPredictory Contract Shapes.

Implicit Types (db : list WeeklyForecast) (pred r : WeeklyForecast).
Implicit Types (download : string → Z → Z → option frame) (k : nat).

Lemma forecast_key_injective db r1 r2 :
  forecast_key db → r1 ∈ db → r2 ∈ db → f_id r1 = f_id r2 → r1 = r2.
Proof.
  unfold forecast_key. intros Hnd H1 H2 Hid.
  apply list_elem_of_lookup in H1 as [i Hi].
  apply list_elem_of_lookup in H2 as [j Hj].
  assert (i = j) as ->; [|congruence].
  eapply NoDup_lookup; [exact Hnd | |].
  - rewrite list_lookup_fmap, Hi. reflexivity.
  - rewrite list_lookup_fmap, Hj. simpl. by rewrite Hid.
Qed.

Lemma weekly_update_other p s i db k r :
  db !! k = Some r → f_id r ≠ i →
  WeeklyPredictory.sql_update p s i db !! k = Some r.
Proof.
  intros Hk Hne. unfold WeeklyPredictory.sql_update.
  rewrite list_lookup_fmap, Hk. simpl.
  destruct (Z.eqb_spec (f_id r) i); congruence.
Qed.

Lemma weekly_update_hit p s db k r :
  db !! k = Some r →
  WeeklyPredictory.sql_update p s (f_id r) db !! k
  = Some (set_evaluation p s r).
Proof.
  intros Hk. unfold WeeklyPredictory.sql_update.
  rewrite list_lookup_fmap, Hk. simpl. by rewrite Z.eqb_refl.
Qed.

Lemma weekly_foldl_other download preds : ∀ db k r,
  db !! k = Some r →
  Forall (fun pred => f_id pred ≠ f_id r) preds →
  foldl (WeeklyPredictory.process download) db preds !! k = Some r.
Proof.
  induction preds as [|pred preds IH]; intros db k r Hk Hall; [done|].
  apply Forall_cons in Hall as [Hne Hall]. cbn [foldl]. apply IH; [|done].
  unfold WeeklyPredictory.process. destruct (evaluate download pred); try done.
  apply weekly_update_other; [done | congruence].
Qed.

(** Under the key, the run treats every row on its own. *)
Lemma evaluation_rowwise download today db :
  forecast_key db →
  evaluate_last_week_predictions download today db
  = grade download (today - (weekday today + 7)) <$> db.
Proof.
  intros Hkey. unfold evaluate_last_week_predictions.
  set (lws := today - (weekday today + 7)).
  set (preds := filter (fun r => to_evaluate lws r = true) db).
  assert (forecast_key preds) as Hpkey.
  { unfold forecast_key, preds. eapply sublist_NoDup; [exact Hkey|].
    apply fmap_sublist, sublist_filter. }
  assert (∀ pred, pred ∈ preds ↔ pred ∈ db ∧ to_evaluate lws pred = true)
    as Hpreds.
  { intros pred. unfold preds. rewrite list_elem_of_filter. tauto. }
  apply list_eq. intros k. rewrite list_lookup_fmap.
  destruct (db !! k) as [r|] eqn:Hk; simpl.
  2: { apply lookup_ge_None. apply lookup_ge_None in Hk.
       assert (Forall2 whole_step db
                 (foldl (WeeklyPredictory.process download) db preds)) as Hall.
       { apply foldl_process_whole, Forall_Forall2_diag, Forall_forall.
         intros r _. by left. }
       by rewrite <- (Forall2_length _ _ _ Hall). }
  unfold grade. destruct (to_evaluate lws r) eqn:Hsel.
  - assert (r ∈ preds) as Hin.
    { apply Hpreds. split; [by eapply list_elem_of_lookup_2 | done]. }
    apply list_elem_of_split in Hin as (l1 & l2 & Hsplit).
    rewrite Hsplit in *. unfold forecast_key in Hpkey.
    rewrite fmap_app, fmap_cons in Hpkey.
    apply NoDup_app in Hpkey as (_ & Hl1 & Hl2).
    apply NoDup_cons in Hl2 as [Hl2 _].
    rewrite foldl_app. cbn [foldl].
    assert (foldl (WeeklyPredictory.process download) db l1 !! k = Some r)
      as Hmid.
    { apply weekly_foldl_other; [done|]. apply Forall_forall.
      intros d Hd Hid. apply (Hl1 (f_id d)).
      - apply list_elem_of_fmap. eauto.
      - rewrite Hid. apply list_elem_of_here. }
    assert (Forall (fun d => f_id d ≠ f_id r) l2) as Hrest.
    { apply Forall_forall. intros d Hd Hid. apply Hl2.
      apply list_elem_of_fmap. eauto. }
    apply weekly_foldl_other.
    + unfold WeeklyPredictory.process. destruct (evaluate download r); try done.
      by apply weekly_update_hit.
    + destruct (evaluate download r); done.
  - apply weekly_foldl_other; [done|]. apply Forall_forall.
    intros pred Hin Hid. apply Hpreds in Hin as [Hin Hsel'].
    assert (pred = r) as ->; [|congruence].
    apply (forecast_key_injective db);
      [done | done | by eapply list_elem_of_lookup_2 | done].
Qed.

Lemma grade_id download lws r : f_id (grade download lws r) = f_id r.
Proof.
  unfold grade. destruct (to_evaluate lws r); [|done].
  by destruct (evaluate download r).
Qed.

Lemma grade_grade download lws r :
  grade download lws (grade download lws r) = grade download lws r.
Proof.
  unfold grade at 2 3. destruct (to_evaluate lws r) eqn:Hsel.
  - destruct (evaluate download r) as [| | p s] eqn:Hout.
    + unfold grade. by rewrite Hsel, Hout.
    + unfold grade. by rewrite Hsel, Hout.
    + unfold grade, to_evaluate. simpl. by rewrite andb_false_r.
  - unfold grade. by rewrite Hsel.
Qed.

Lemma sample_archive_key : forecast_key Sample.archive.
Proof. apply (bool_decide_unpack _). by vm_compute. Defined.

(** X16. The evaluation leaves alone every row that is already evaluated
    and every row of another week than the last. *)
Theorem evaluated_row_untouched download today db k r :
  forecast_key db → db !! k = Some r →
  is_Some (actual_closing_price r)
  ∨ week_start_date r ≠ today - (weekday today + 7) →
  evaluate_last_week_predictions download today db !! k = Some r.
Proof.
  intros Hkey Hk Hout. rewrite evaluation_rowwise by done.
  rewrite list_lookup_fmap, Hk. simpl. f_equal.
  unfold grade, to_evaluate. destruct Hout as [[p Hp] | Hweek].
  - by rewrite Hp, andb_false_r.
  - by rewrite (proj2 (Z.eqb_neq _ _) Hweek).
Qed.

Lemma evaluated_row_untouched_witness :
  evaluate_last_week_predictions Sample.closes 14 Sample.archive !! 3%nat
  = Some Sample.graded
  ∧ evaluate_last_week_predictions Sample.closes 14 Sample.archive !! 2%nat
    = Some Sample.earlier.
Proof.
  split.
  - apply (evaluated_row_untouched Sample.closes 14 Sample.archive 3
             Sample.graded sample_archive_key); [reflexivity|].
    left. by eexists.
  - apply (evaluated_row_untouched Sample.closes 14 Sample.archive 2
             Sample.earlier sample_archive_key); [reflexivity|].
    right. vm_compute. discriminate.
Defined.

(** X17. Evaluating twice on the same day with the same closes gives what
    the first evaluation gave: a row the first pass filled is outside the
    selection of the second, and a row it could not fill fails again. *)
Theorem evaluation_twice download today db :
  forecast_key db →
  evaluate_last_week_predictions download today
    (evaluate_last_week_predictions download today db)
  = evaluate_last_week_predictions download today db.
Proof.
  intros Hkey. rewrite (evaluation_rowwise download today db Hkey).
  rewrite evaluation_rowwise.
  - rewrite <- list_fmap_compose. apply list_fmap_ext.
    intros _ r _. apply grade_grade.
  - unfold forecast_key. rewrite <- list_fmap_compose.
    erewrite list_fmap_ext; [exact Hkey|].
    intros _ r _. apply grade_id.
Qed.

Lemma evaluation_twice_witness :
  evaluate_last_week_predictions Sample.closes 14
    (evaluate_last_week_predictions Sample.closes 14 Sample.archive)
  = evaluate_last_week_predictions Sample.closes 14 Sample.archive.
Proof. apply (evaluation_twice _ _ _ sample_archive_key). Defined.

(** X18. A row of last week stays unevaluated, to be selected again by the
    next run, when it holds no predictions, and when the download of its
    closes raises or comes back empty. *)
Theorem unevaluable_row_unchanged download today db k r :
  forecast_key db → db !! k = Some r →
  daily_predictions_json r = None
  ∨ daily_predictions_json r = Some []
  ∨ download (f_symbol r) (week_start_date r) (week_end_date r + 1) = None
  ∨ download (f_symbol r) (week_start_date r) (week_end_date r + 1) = Some [] →
  evaluate_last_week_predictions download today db !! k = Some r.
Proof.
  intros Hkey Hk Hwhy. rewrite evaluation_rowwise by done.
  rewrite list_lookup_fmap, Hk. simpl. f_equal.
  unfold grade. destruct (to_evaluate _ r); [|done].
  unfold evaluate.
  destruct Hwhy as [Hj | [Hj | [Hd | Hd]]]; rewrite ?Hj, ?Hd; try done.
  - by destruct (download _ _ _).
  - by destruct (download _ _ _).
  - destruct (daily_predictions_json r) as [[|d0 rest]|]; try done.
    by destruct (score _ _ _ _ _ _).
Qed.

Lemma unevaluable_row_unchanged_witness :
  evaluate_last_week_predictions Sample.closes 14 Sample.archive !! 4%nat
  = Some Sample.blank.
Proof.
  apply (unevaluable_row_unchanged Sample.closes 14 Sample.archive 4
           Sample.blank sample_archive_key); [reflexivity|].
  by left.
Defined.

End EvaluationMore.

(** ** More on the generation of next week *)

Section GenerationMore.
Import WeeklyPredictory Contract Shapes.

Implicit Types (db pending : list WeeklyForecast).

(** X19. The week a forecast is made for starts on the first Monday that is
    not before today, today itself on a Monday, and ends on the Friday
    after it. *)
Theorem week_start_is_monday today :
  weekday (week_start today) = 0
  ∧ today ≤ week_start today ≤ today + 6
  ∧ (weekday today = 0 → week_start today = today)
  ∧ weekday (week_end today) = 4.
Proof.
  unfold weekday, week_end, week_start, weekday.
  split; [|split; [|split]]; Z.div_mod_to_equations; lia.
Qed.

(** X20. The week the evaluation selects starts on a Monday, and a forecast
    made on day [made] is selected by the evaluation of day [today] exactly
    when [today] falls in the seven days that follow the forecast week. *)
Theorem evaluation_window made today :
  weekday (today - (weekday today + 7)) = 0
  ∧ (week_start made = today - (weekday today + 7)
     ↔ week_start made + 7 ≤ today ≤ week_start made + 13).
Proof.
  unfold week_start, weekday.
  split; [|split]; Z.div_mod_to_equations; lia.
Qed.

Lemma exists_for_app today symbol db pending :
  exists_for today symbol (db ++ pending)
  = exists_for today symbol db || exists_for today symbol pending.
Proof. unfold exists_for. apply existsb_app. Qed.

Lemma exists_for_false today symbol db :
  exists_for today symbol db = false ↔
  (symbol, week_start today)
    ∉ (fun r => (f_symbol r, week_start_date r)) <$> db.
Proof.
  unfold exists_for. induction db as [|r db IH]; simpl.
  { split; [intros _ []%elem_of_nil | done]. }
  rewrite orb_false_iff, IH, not_elem_of_cons. split.
  - intros [Hr Hdb]. split; [|done]. intros [= Hs Hw].
    by rewrite <- Hs, <- Hw, String.eqb_refl, Z.eqb_refl in Hr.
  - intros [Hr Hdb]. split; [|done]. apply andb_false_iff.
    destruct (String.eqb_spec (f_symbol r) symbol) as [Hs | Hs]; [|by left].
    right. apply Z.eqb_neq. intros Hw. apply Hr. by rewrite Hs, Hw.
Qed.

Section Run.
Variable json_loads : string → option response.
Variable m : market.
Variable today : Z.

Lemma forecast_symbol symbol table row :
  forecast json_loads m today symbol table = Some row →
  f_symbol row = symbol ∧ week_start_date row = week_start today.
Proof.
  unfold forecast. intros H.
  repeat match type of H with
         | (_ ≫= _) = Some _ => apply bind_Some in H as (? & ? & H)
         end.
  by injection H as <-.
Qed.

(** X21. A symbol that already has a row for the coming week gets no second
    one: when every tracked index has its row, the generation leaves the
    table as it is and asks neither the market nor the model. *)
Theorem generation_skips_existing db :
  (∀ symbol, symbol ∈ INDICES_TO_PREDICT →
     exists_for today symbol db = true) →
  generate_new_weekly_predictions json_loads m today db = db.
Proof.
  intros Hall. unfold generate_new_weekly_predictions.
  assert (∀ symbols, symbols ⊆ INDICES_TO_PREDICT →
            foldl (visit json_loads m today db) [] symbols = []) as Hnone.
  { induction symbols as [|symbol symbols IH]; intros Hsub; [done|].
    cbn [foldl]. unfold visit at 2. rewrite app_nil_r, Hall.
    - apply IH. intros x Hx. by apply Hsub, list_elem_of_further.
    - apply Hsub, list_elem_of_here. }
  by rewrite Hnone, app_nil_r.
Qed.

(** X22. The rollback is that of the whole run so far: when the Sensex, the
    last index, has no row for the coming week and its forecast fails,
    nothing is stored, not even a Nifty forecast made just before. *)
Theorem generation_all_or_nothing db :
  exists_for today "^BSESN" db = false →
  (∀ table, forecast json_loads m today "^BSESN" table = None) →
  generate_new_weekly_predictions json_loads m today db = db.
Proof.
  intros Hnew Hfail. unfold generate_new_weekly_predictions, INDICES_TO_PREDICT.
  cbn [foldl].
  set (pending := visit json_loads m today db [] "^NSEI").
  assert (exists_for today "^BSESN" pending = false) as Hpending.
  { unfold pending, visit. destruct (exists_for today "^NSEI" (db ++ [])); [done|].
    destruct (forecast json_loads m today "^NSEI" (db ++ [])) as [row|] eqn:Hrow;
      [|done].
    apply forecast_symbol in Hrow as [Hs _]. unfold exists_for. simpl.
    by rewrite Hs. }
  unfold visit. rewrite exists_for_app, Hnew, Hpending, Hfail. simpl.
  apply app_nil_r.
Qed.

(** X23. The generation keeps the table at one row at most for a symbol
    and a week start. *)
Theorem generation_one_per_week db :
  one_per_week db →
  one_per_week (generate_new_weekly_predictions json_loads m today db).
Proof.
  intros Hdb. unfold generate_new_weekly_predictions.
  assert (∀ symbols pending, one_per_week (db ++ pending) →
            one_per_week
              (db ++ foldl (visit json_loads m today db) pending symbols))
    as Hinv.
  { induction symbols as [|symbol symbols IH]; intros pending Hp; [done|].
    cbn [foldl]. apply IH. unfold visit.
    destruct (exists_for today symbol (db ++ pending)) eqn:Hex; [done|].
    destruct (forecast json_loads m today symbol (db ++ pending))
      as [row|] eqn:Hrow; [|by rewrite app_nil_r].
    apply forecast_symbol in Hrow as [Hs Hw].
    unfold one_per_week in *. rewrite app_assoc, fmap_app.
    apply NoDup_app. split; [done|]. split.
    - intros key Hkey Hin. apply list_elem_of_singleton in Hin. simpl in Hin.
      rewrite Hs, Hw in Hin. subst key.
      by apply exists_for_false in Hex.
    - apply NoDup_singleton. }
  apply Hinv. by rewrite app_nil_r.
Qed.

End Run.

Lemma generation_skips_existing_witness :
  generate_new_weekly_predictions Sample.short_loads Sample.short_market 7
    Sample.forecasts = Sample.forecasts.
Proof.
  apply generation_skips_existing. apply Forall_forall.
  vm_compute. repeat constructor.
Defined.

Lemma generation_all_or_nothing_witness :
  is_Some (forecast Sample.full_loads Sample.half_market 14 "^NSEI"
             Sample.forecasts)
  ∧ generate_new_weekly_predictions Sample.full_loads Sample.half_market 14
      Sample.forecasts = Sample.forecasts.
Proof.
  split; [by eexists|].
  apply generation_all_or_nothing; [reflexivity|]. intros table. reflexivity.
Defined.

Lemma generation_one_per_week_witness :
  one_per_week
    (generate_new_weekly_predictions Sample.short_loads Sample.short_market 14
       Sample.forecasts).
Proof.
  apply generation_one_per_week.
  apply (bool_decide_unpack _). by vm_compute.
Defined.

Lemma week_start_is_monday_witness : week_start 14 = 14 ∧ week_start 16 = 21.
Proof.
  split; [|reflexivity].
  destruct (week_start_is_monday 14) as (_ & _ & Hmonday & _).
  apply Hmonday. reflexivity.
Defined.

End GenerationMore.

(** ** The search for the JSON object in a reply *)

Section JsonMatch.
Import WeeklyPredictory Endpoints Shapes.

Lemma endswith_cons c s suffix :
  endswith s suffix = true → endswith (String c s) suffix = true.
Proof. intros H. cbn [endswith]. rewrite H. apply orb_true_r. Qed.

Lemma upto_last_brace_Some s json :
  upto_last_brace s = Some json →
  ∃ post, s = json +:+ post ∧ occurs "}" post = false
          ∧ endswith json "}" = true.
Proof.
  revert json. induction s as [|c s IH]; intros json Hm; [done|].
  cbn [upto_last_brace] in Hm.
  destruct (upto_last_brace s) as [m|] eqn:Hrest.
  - injection Hm as <-. destruct (IH m eq_refl) as (post & -> & Hpost & Hend).
    exists post. repeat split; [done|]. by apply endswith_cons.
  - destruct (Ascii.eqb_spec c "}") as [-> | Hne]; [|done].
    injection Hm as <-. exists s. repeat split.
    clear IH. induction s as [|c s IH]; [done|].
    cbn [upto_last_brace] in Hrest.
    destruct (upto_last_brace s); [done|].
    cbn [occurs]. destruct (Ascii.eqb c "}"); [done|]. by apply IH.
Qed.

Lemma upto_last_brace_None s :
  upto_last_brace s = None ↔ occurs "}" s = false.
Proof.
  induction s as [|c s IH]; [done|]. cbn [upto_last_brace occurs].
  destruct (upto_last_brace s) as [m|].
  - split; [done|]. intros [_ H]%orb_false_iff. by apply IH in H.
  - destruct (Ascii.eqb c "}"); [done|]. simpl. by rewrite <- IH.
Qed.

Lemma occurs_app c s t : occurs c (s +:+ t) = occurs c s || occurs c t.
Proof.
  induction s as [|c' s IH]; [done|].
  change (String c' s +:+ t) with (String c' (s +:+ t)).
  cbn [occurs]. by rewrite IH, orb_assoc.
Qed.

(** X24. What the search finds is the stretch of the reply from its first
    opening brace to its last closing brace: it begins with the one and ends
    with the other, nothing before it holds an opening brace and nothing
    after it a closing one. *)
Theorem json_match_first_to_last raw_response json :
  json_match raw_response = Some json →
  ∃ pre post,
    raw_response = pre +:+ json +:+ post
    ∧ occurs "{" pre = false
    ∧ occurs "}" post = false
    ∧ startswith json "{" = true
    ∧ endswith json "}" = true.
Proof.
  revert json. induction raw_response as [|c s IH]; intros json Hm; [done|].
  cbn [json_match] in Hm. destruct (Ascii.eqb_spec c "{") as [-> | Hne].
  - apply upto_last_brace_Some in Hm as (post & Hsplit & Hpost & Hend).
    exists EmptyString, post. repeat split; try done.
    destruct json as [|c json]; [done|].
    change (String c json +:+ post) with (String c (json +:+ post)) in Hsplit.
    injection Hsplit as <- _. unfold startswith. by destruct json.
  - destruct (IH json Hm) as (pre & post & -> & Hpre & Hpost & Hstart & Hend).
    exists (String c pre), post. repeat split; try done.
    cbn [occurs]. rewrite Hpre. by apply Ascii.eqb_neq in Hne as ->.
Qed.

Lemma json_match_first_to_last_witness :
  ∃ pre post,
    "Here is the forecast: {two days} I hope it helps."
    = pre +:+ "{two days}" +:+ post
    ∧ occurs "{" pre = false
    ∧ occurs "}" post = false
    ∧ startswith "{two days}" "{" = true
    ∧ endswith "{two days}" "}" = true.
Proof.
  apply (json_match_first_to_last
           "Here is the forecast: {two days} I hope it helps." "{two days}").
  reflexivity.
Defined.

(** X25. The search fails exactly when the reply has no opening brace with
    a closing brace somewhere after it; the job then raises for the symbol. *)
Theorem json_match_fails raw_response :
  json_match raw_response = None ↔
  ∀ pre rest, raw_response = pre +:+ String "{" rest →
              occurs "}" rest = false.
Proof.
  induction raw_response as [|c s IH].
  { split; [|done]. intros _ pre rest Hsplit. by destruct pre. }
  cbn [json_match]. destruct (Ascii.eqb_spec c "{") as [-> | Hne].
  - rewrite upto_last_brace_None. cbn [occurs]. simpl. split.
    + intros Hnone pre rest Hsplit. destruct pre as [|c' pre].
      * by injection Hsplit as <-.
      * change (String c' pre +:+ String "{" rest)
          with (String c' (pre +:+ String "{" rest)) in Hsplit.
        injection Hsplit as <- ->.
        rewrite occurs_app in Hnone. cbn [occurs] in Hnone.
        apply orb_false_iff in Hnone as [_ Hnone].
        by apply orb_false_iff in Hnone as [_ Hnone].
    + intros Hall. apply (Hall EmptyString s). reflexivity.
  - rewrite IH. split.
    + intros Hall pre rest Hsplit. destruct pre as [|c' pre].
      * injection Hsplit as -> _. done.
      * change (String c' pre +:+ String "{" rest)
          with (String c' (pre +:+ String "{" rest)) in Hsplit.
        injection Hsplit as _ ->. by apply (Hall pre rest).
    + intros Hall pre rest ->. by apply (Hall (String c pre) rest).
Qed.

End JsonMatch.

(** ** One decision for a symbol and a day *)

Section OnePerDay.
Import Store App AgentWorker Endpoints Shapes.

Implicit Types (db : list DecisionRow) (w : world).

Lemma has_today_false today symbol db :
  has_today today symbol db = false ↔
  (symbol, today) ∉ (fun r => (d_symbol r, d_date r)) <$> db.
Proof.
  unfold has_today. induction db as [|r db IH]; simpl.
  { split; [intros _ []%elem_of_nil | done]. }
  rewrite orb_false_iff, IH, not_elem_of_cons. split.
  - intros [Hr Hdb]. split; [|done]. intros [= Hs Hd].
    by rewrite <- Hs, <- Hd, String.eqb_refl, Z.eqb_refl in Hr.
  - intros [Hr Hdb]. split; [|done]. apply andb_false_iff.
    destruct (String.eqb_spec (d_symbol r) symbol) as [Hs | Hs]; [|by left].
    right. apply Z.eqb_neq. intros Hd. apply Hr. by rewrite Hs, Hd.
Qed.

Lemma one_per_day_snoc today symbol db row :
  one_per_day db → has_today today symbol db = false →
  d_symbol row = symbol → d_date row = today →
  one_per_day (db ++ [row]).
Proof.
  intros Hdb Hnew Hs Hd. unfold one_per_day in *. rewrite fmap_app.
  apply NoDup_app. split; [done|]. split; [|apply NoDup_singleton].
  intros key Hkey Hin. apply list_elem_of_singleton in Hin. simpl in Hin.
  rewrite Hs, Hd in Hin. subst key. by apply has_today_false in Hnew.
Qed.

Lemma visit_one_per_day w today db log stock :
  keeps_symbol w → one_per_day db →
  one_per_day (visit w today (db, log) stock).1.
Proof.
  intros Hkeep Hdb. destruct stock as [symbol exchange].
  destruct (visit_outcome w today db log symbol exchange)
    as [[_ ->] | [(ev & _ & ->) | (row & -> & Hnew & Hdate & Hsym)]];
    try done.
  simpl. apply (one_per_day_snoc today symbol); try done.
  apply insert_params_symbol in Hsym
    as [Hown | (close & reply & Hreply & Hnamed)]; [done|].
  by rewrite (Hkeep _ _ _ _ _ Hreply) in Hnamed.
Qed.

(** X26. With replies that have no member named ["symbol"], the daily job
    keeps the table at one decision at most for a symbol and a day. *)
Theorem run_one_per_day w today watchlist db :
  keeps_symbol w → one_per_day db →
  one_per_day (run_proactive_analysis w today watchlist db).1.
Proof.
  intros Hkeep. unfold run_proactive_analysis.
  generalize (@nil event) as log. revert db.
  induction (unique_stocks watchlist) as [|stock stocks IH];
    intros db log Hdb; [done|].
  cbn [foldl].
  destruct (visit w today (db, log) stock) as [db' log'] eqn:Hv.
  apply IH.
  change db' with (db', log').1. rewrite <- Hv. by apply visit_one_per_day.
Qed.

Lemma sample_ledger_one_per_day : one_per_day Sample.ledger.
Proof. apply (bool_decide_unpack _). by vm_compute. Defined.

Lemma sample_plain_keeps_symbol : keeps_symbol Sample.plain_world.
Proof.
  intros s e close db reply Hreply. simpl in Hreply.
  injection Hreply as <-. vm_compute. reflexivity.
Defined.

Lemma run_one_per_day_witness :
  one_per_day
    (run_proactive_analysis Sample.plain_world 100 Sample.watchlist
       Sample.ledger).1.
Proof.
  apply (run_one_per_day Sample.plain_world 100 Sample.watchlist
           Sample.ledger sample_plain_keeps_symbol sample_ledger_one_per_day).
Defined.

(** X27. The same holds for the analysis endpoint: a call, cached or fresh,
    leaves the table at one decision at most for a symbol and a day. *)
Theorem analyze_stock_one_per_day w today db user_id symbol exchange :
  keeps_symbol w → one_per_day db →
  one_per_day (analyze_stock w today db user_id symbol exchange).1.
Proof.
  intros Hkeep Hdb. unfold analyze_stock.
  destruct (existing_analysis today _ db) as [existing|] eqn:Hex; [done|].
  apply existing_analysis_None in Hex.
  destruct (members _ !! "error"); [done|].
  destruct (sql_insert _ _ _ db) as [db'|] eqn:Hins; [|done].
  apply sql_insert_row in Hins as (row & -> & Hsym & Hdate & _).
  rewrite last_snoc. simpl.
  apply (one_per_day_snoc today (format_indian_symbol symbol exchange));
    try done.
  apply insert_params_symbol in Hsym
    as [Hown | (close & reply & Hreply & Hnamed)]; [done|].
  by rewrite (Hkeep _ _ _ _ _ Hreply) in Hnamed.
Qed.

Lemma analyze_stock_one_per_day_witness :
  one_per_day
    (analyze_stock Sample.plain_world 100 Sample.ledger 7 "wipro" "NSE").1.
Proof.
  apply (analyze_stock_one_per_day Sample.plain_world 100 Sample.ledger 7
           "wipro" "NSE" sample_plain_keeps_symbol sample_ledger_one_per_day).
Defined.

End OnePerDay.

(** ** One stock or many on the price feed *)

Section SingleStock.
Import Store UpdatedPnl.

Lemma remove_dups_constant (s : string) (l : list string) :
  l ≠ [] → Forall (fun x => x = s) l → remove_dups l = [s].
Proof.
  induction l as [|x l IH]; [done|]. intros _ Hall.
  apply Forall_cons in Hall as [-> Hall]. cbn [remove_dups].
  destruct l as [|y l].
  - case_decide as Hin; [by apply elem_of_nil in Hin | done].
  - case_decide as Hin; [by apply IH|].
    exfalso. apply Hin. apply Forall_cons in Hall as [-> _].
    apply list_elem_of_here.
Qed.

(** X28. The two shapes of the price feed agree: when all decisions to
    reconcile are of one symbol, a feed that comes as a single series does
    what a frame with that one column does. *)
Theorem series_is_one_column_frame last symbol db :
  (∀ dec, dec ∈ db → eligible dec = true → d_symbol dec = symbol) →
  update_profit_loss (UpdatedPnl.Series last) db
  = update_profit_loss (Frame {[ symbol := last ]}) db.
Proof.
  intros Hone. unfold update_profit_loss.
  destruct (select_decisions db) as [|d0 ds] eqn:Hsel; [done|].
  unfold latest_prices, symbols_of.
  rewrite (remove_dups_constant symbol); [done | done |].
  apply Forall_fmap, Forall_forall. intros dec Hin. simpl.
  rewrite <- Hsel in Hin. apply select_decisions_elem in Hin as [Hin Hel].
  by apply Hone.
Qed.

Lemma series_is_one_column_frame_witness :
  update_profit_loss (UpdatedPnl.Series 3605) Sample.ledger
  = update_profit_loss (Frame {[ "TCS.NS" := 3605%float ]}) Sample.ledger.
Proof.
  apply series_is_one_column_frame.
  apply (proj1 (Forall_forall
                  (fun dec => eligible dec = true → d_symbol dec = "TCS.NS")
                  Sample.ledger)).
  repeat (apply Forall_cons; split;
          [intros Hel; first [reflexivity | discriminate Hel] |]).
  apply Forall_nil_2.
Defined.

End SingleStock.
